(** * Resilient invocation layer of the job-match backend

    Shallow embedding of
    - [src/src/utils/aiCache.js]           (AICache),
    - [src/src/utils/retryWithBackoff.js]  (retryWithBackoff),
    - [src/src/utils/sessionCleanup.js]    (APIMonitor, second half of the file),
    - [src/src/modules/job-match/ai.service.js] (analyzeJobMatch,
      parseAIResponse, extractListItems). *)

From Stdlib Require Import ZArith QArith Lia Bool.
From stdpp Require Import base gmap strings list.

Open Scope Z_scope.
Local Set Warnings "-register-all".

(* ------------------------------------------------------------------ *)
(** ** JavaScript strings *)

(** A JavaScript string is a sequence of UTF-16 code units. *)
Abbreviation jsstr := (list Z).

(** String literals of the source, all ASCII. *)
Fixpoint js (s : string) : jsstr :=
  match s with
  | EmptyString => []
  | String c s' => Z.of_nat (Ascii.nat_of_ascii c) :: js s'
  end.

Fixpoint prefixb (p s : jsstr) : bool :=
  match p, s with
  | [], _ => true
  | c :: p', d :: s' => (c =? d) && prefixb p' s'
  | _ :: _, [] => false
  end.

(** [String.prototype.includes]. *)
Fixpoint includes (s sub : jsstr) : bool :=
  prefixb sub s || match s with [] => false | _ :: s' => includes s' sub end.

(** [s?.includes(sub)] on an optional message: [undefined] is falsy. *)
Definition opt_includes (m : option jsstr) (sub : jsstr) : bool :=
  match m with Some s => includes s sub | None => false end.

(* ------------------------------------------------------------------ *)
(** ** AICache ([aiCache.js]) *)

Module AICache.

(** [{ data, expiresAt }]; [expiresAt] is a [Date.now()] value in ms. *)
Record CacheEntry (V : Type) := { data : V; expiresAt : Z }.
Arguments data {V}.
Arguments expiresAt {V}.
Arguments Build_CacheEntry {V}.

Section Cache.
Context {V : Type}.

(** [this.cache = new Map()], keyed by the hex digest. *)
Abbreviation cache := (gmap string (CacheEntry V)).

(** [get(key)] at time [now]; returns the value and the map after the
    lazy eviction. *)
Definition get (key : string) (now : Z) (c : cache) : option V * cache :=
  match c !! key with
  | None => (None, c)
  | Some cached =>
      if now >? expiresAt cached then (None, delete key c)
      else (Some (data cached), c)
  end.

(** [set(key, data, ttl)] at time [now]. *)
Definition set (key : string) (v : V) (ttl now : Z) (c : cache) : cache :=
  <[key := Build_CacheEntry v (now + ttl)]> c.

(** [clearExpired()] at time [now]. *)
Definition clearExpired (now : Z) (c : cache) : cache :=
  filter (fun kv : string * CacheEntry V => ~ (now > expiresAt kv.2)) c.

(** [getStats()]: [{ size: this.cache.size, ttl: this.ttl }]. *)
Definition getStats (ttl : Z) (c : cache) : nat * Z := (size c, ttl).
End Cache.

(** The default TTL of the singleton: one hour. *)
Definition default_ttl : Z := 3600000.

End AICache.

(* ------------------------------------------------------------------ *)
(** ** JavaScript numbers (IEEE-754 binary64) *)

(** Every finite double is an integer multiple of [2^-1074]; a double is
    represented here by that integer, so [x] stands for [x * 2^-1074].
    Arithmetic is exact followed by rounding to nearest, ties to even, to
    53 significant bits with the subnormal floor at [2^-1074].  Overflow
    to infinity is not represented: the delays of this development stay
    below [2^16]. *)
Module F64.

(** Rounding of the exact value [N * 2^E], for [E <= -1074], to a double. *)
Definition round (N E : Z) : Z :=
  if N =? 0 then 0 else
  let a := Z.abs N in
  let s := Z.max (Z.log2 a + 1 - 53) (-1074 - E) in
  let q := a / 2 ^ s in
  let r := a mod 2 ^ s in
  let q' := if (2 ^ s <? 2 * r) || ((2 * r =? 2 ^ s) && Z.odd q)
            then q + 1 else q in
  Z.sgn N * (q' * 2 ^ (E + s + 1074)).

(** [x * y] and [x + y] on doubles. *)
Definition mul (x y : Z) : Z := round (x * y) (-2148).
Definition add (x y : Z) : Z := round (x + y) (-1074).

(** The double whose value is the integer [n] (exact for [|n| < 2^53]). *)
Definition of_Z (n : Z) : Z := n * 2 ^ 1074.

(** [Math.pow(2, n)] for [0 <= n <= 1023]: exact. *)
Definition pow2 (n : Z) : Z := 2 ^ (n + 1074).

(** The literal [0.3]: the double nearest to 3/10, [5404319552844595 * 2^-54]. *)
Definition lit_0_3 : Z := 5404319552844595 * 2 ^ 1020.



End F64.

(* ------------------------------------------------------------------ *)
(** ** Outcomes of JavaScript code that may throw *)

Inductive outcome (A E : Type) : Type :=
| Ok (a : A)
| Throw (e : E).
Arguments Ok {A E} a.
Arguments Throw {A E} e.

(** The error objects the provider client and the runtime throw: only the
    properties the code reads. *)
Record jserr := {
  err_message : option jsstr;         (* error.message *)
  err_status : option Z;              (* error.status *)
  err_code : option jsstr;            (* error.code *)
  err_response_status : option Z;     (* error.response?.status *)
  err_is_api : bool                   (* error instanceof OpenAI.APIError *)
}.

(** [new Error(msg)]. *)
Definition new_Error (msg : jsstr) : jserr :=
  {| err_message := Some msg; err_status := None; err_code := None;
     err_response_status := None; err_is_api := false |}.

(** The [TypeError] of a property read on [undefined] or [null]. *)
Definition type_error : jserr :=
  new_Error (js "Cannot read properties of undefined").

Definition opt_Z_eqb (o : option Z) (n : Z) : bool :=
  match o with Some m => m =? n | None => false end.

Definition opt_str_eqb (o : option jsstr) (s : jsstr) : bool :=
  match o with Some m => bool_decide (m = s) | None => false end.

(** The retry predicate written in [retryWithBackoff] (the default) and
    repeated in [analyzeJobMatch]. *)
Definition is_retriable (error : jserr) : bool :=
  opt_Z_eqb (err_response_status error) 429 ||
  opt_Z_eqb (err_status error) 429 ||
  opt_str_eqb (err_code error) (js "ECONNRESET") ||
  opt_str_eqb (err_code error) (js "ETIMEDOUT") ||
  opt_includes (err_message error) (js "429") ||
  opt_includes (err_message error) (js "quota") ||
  opt_includes (err_message error) (js "rate limit").

(* ------------------------------------------------------------------ *)
(** ** retryWithBackoff ([retryWithBackoff.js]) *)

Module Retry.
Section Retry.
(** [St] is the state the effects of the loop are threaded through. *)
Context {St A E : Type}.

Record options := {
  maxRetries : Z;
  baseDelay : Z;                        (* a double, see [F64] *)
  maxDelay : Z;                         (* a double *)
  shouldRetry : E -> St -> bool * St    (* may have effects *)
}.

(** The effects the loop performs besides [shouldRetry]. *)
Record effects := {
  call : St -> outcome A E * St;        (* await fn() *)
  random : St -> Z * St;                (* Math.random() *)
  wait : Z -> St -> St                  (* await wait(delay) *)
}.

Context (o : options) (fx : effects).

(** [exponentialDelay] and [delay] of the iteration [attempt], for the
    random number [rnd]. *)
Definition exponentialDelay (attempt : Z) : Z :=
  Z.min (F64.mul (baseDelay o) (F64.pow2 attempt)) (maxDelay o).

Definition delay_of (attempt rnd : Z) : Z :=
  let e := exponentialDelay attempt in
  let jitter := F64.mul (F64.mul rnd F64.lit_0_3) e in
  F64.add e jitter.

(** The [for] loop: [fuel] iterations remain, [lastError] is [None] while
    it is [undefined].  A thrown [undefined] is [Throw None]. *)
Fixpoint loop (fuel : nat) (attempt : Z) (lastError : option E) (s : St)
  : outcome A (option E) * St :=
  match fuel with
  | O => (Throw lastError, s)
  | Datatypes.S fuel' =>
      let '(res, s1) := call fx s in
      match res with
      | Ok v => (Ok v, s1)
      | Throw error =>
          let '(retry, s2) := shouldRetry o error s1 in
          if negb retry || (attempt =? maxRetries o - 1)
          then (Throw (Some error), s2)
          else
            let '(rnd, s3) := random fx s2 in
            loop fuel' (attempt + 1) (Some error) (wait fx (delay_of attempt rnd) s3)
      end
  end.

(** [for (let attempt = 0; attempt < maxRetries; attempt++)] runs
    [max 0 maxRetries] iterations. *)
Definition retryWithBackoff (s : St) : outcome A (option E) * St :=
  loop (Z.to_nat (maxRetries o)) 0 None s.
End Retry.
End Retry.

(* ------------------------------------------------------------------ *)
(** ** APIMonitor ([sessionCleanup.js], second module of the file) *)

Module APIMonitor.

(** [{ timestamp, message, status, code }] *)
Record errorEntry := {
  timestamp : Z;
  message : option jsstr;
  status : option Z;
  code : option jsstr
}.

(** [this.stats]; the [Date] values are their time values in ms. *)
Record Stats := {
  totalCalls : Z;
  successfulCalls : Z;
  failedCalls : Z;
  cacheHits : Z;
  quotaErrors : Z;
  retries : Z;
  lastError : option Z;
  lastSuccess : option Z;
  errors : list errorEntry
}.

(** [this.maxErrors = 50] *)
Definition maxErrors : nat := 50.

Definition initial : Stats :=
  {| totalCalls := 0; successfulCalls := 0; failedCalls := 0; cacheHits := 0;
     quotaErrors := 0; retries := 0; lastError := None; lastSuccess := None;
     errors := [] |}.

Definition recordCall (st : Stats) : Stats :=
  {| totalCalls := totalCalls st + 1; successfulCalls := successfulCalls st;
     failedCalls := failedCalls st; cacheHits := cacheHits st;
     quotaErrors := quotaErrors st; retries := retries st;
     lastError := lastError st; lastSuccess := lastSuccess st;
     errors := errors st |}.

(** [recordSuccess()] at time [now] ([new Date()]). *)
Definition recordSuccess (now : Z) (st : Stats) : Stats :=
  {| totalCalls := totalCalls st; successfulCalls := successfulCalls st + 1;
     failedCalls := failedCalls st; cacheHits := cacheHits st;
     quotaErrors := quotaErrors st; retries := retries st;
     lastError := lastError st; lastSuccess := Some now;
     errors := errors st |}.

Definition recordCacheHit (st : Stats) : Stats :=
  {| totalCalls := totalCalls st; successfulCalls := successfulCalls st;
     failedCalls := failedCalls st; cacheHits := cacheHits st + 1;
     quotaErrors := quotaErrors st; retries := retries st;
     lastError := lastError st; lastSuccess := lastSuccess st;
     errors := errors st |}.

Definition recordRetry (st : Stats) : Stats :=
  {| totalCalls := totalCalls st; successfulCalls := successfulCalls st;
     failedCalls := failedCalls st; cacheHits := cacheHits st;
     quotaErrors := quotaErrors st; retries := retries st + 1;
     lastError := lastError st; lastSuccess := lastSuccess st;
     errors := errors st |}.

(** The quota test of [recordFailure]. *)
Definition is_quota_error (error : jserr) : bool :=
  opt_includes (err_message error) (js "quota") ||
  opt_includes (err_message error) (js "429") ||
  opt_Z_eqb (err_status error) 429.

(** [recordFailure(error)]; [lastError] is the [new Date()] of time [now],
    the entry's [timestamp] the later [new Date()] of time [now'].
    On [undefined] the counter and [lastError] are updated, then
    [error.message] throws. *)
Definition recordFailure (now now' : Z) (err : option jserr) (st : Stats)
  : outcome unit jserr * Stats :=
  let failed := failedCalls st + 1 in
  match err with
  | None =>
      (Throw type_error,
       {| totalCalls := totalCalls st; successfulCalls := successfulCalls st;
          failedCalls := failed; cacheHits := cacheHits st;
          quotaErrors := quotaErrors st; retries := retries st;
          lastError := Some now; lastSuccess := lastSuccess st;
          errors := errors st |})
  | Some error =>
      let quota := if is_quota_error error then quotaErrors st + 1
                   else quotaErrors st in
      let errorEntry := {| timestamp := now'; message := err_message error;
                           status := err_status error; code := err_code error |} in
      let errs := errorEntry :: errors st in
      let errs := if Nat.ltb maxErrors (length errs) then take maxErrors errs
                  else errs in
      (Ok tt,
       {| totalCalls := totalCalls st; successfulCalls := successfulCalls st;
          failedCalls := failed; cacheHits := cacheHits st;
          quotaErrors := quota; retries := retries st;
          lastError := Some now; lastSuccess := lastSuccess st;
          errors := errs |})
  end.

(** [x < y] on rationals. *)
Definition Qltb (x y : Q) : bool := negb (Qle_bool y x).

(** [isQuotaErrorFrequent()]; the ratios of the counters are compared as
    exact rationals. *)
Definition isQuotaErrorFrequent (st : Stats) : bool :=
  (0 <? failedCalls st) &&
  Qltb (3 # 10) (inject_Z (quotaErrors st) / inject_Z (failedCalls st))%Q.

Inductive health_status := healthy | warning | critical.

Record Health := {
  h_status : health_status;
  h_successRate : Q;
  h_recommendations : list string;
  h_lastError : option Z;
  h_lastSuccess : option Z
}.

Definition getHealth (st : Stats) : Health :=
  let successRate :=
    if 0 <? totalCalls st
    then (inject_Z (successfulCalls st) / inject_Z (totalCalls st))%Q else 1%Q in
  let '(status, recs) :=
    if Qltb successRate (1 # 2)%Q then
      (critical, ["More than 50% of API calls are failing";
                  "Check OpenAI API status and billing"]%string)
    else if Qltb successRate (4 # 5)%Q then
      (warning, ["Success rate is below 80%";
                 "Monitor API usage and errors"]%string)
    else (healthy, []) in
  let '(status, recs) :=
    if isQuotaErrorFrequent st then
      (match status with critical => critical | _ => warning end,
       recs ++ ["Frequent quota errors detected";
                "Consider upgrading OpenAI plan or reducing usage"]%string)
    else (status, recs) in
  let recs :=
    if successfulCalls st * 2 <? retries st then
      recs ++ ["High retry rate detected";
               "Check network connectivity and API response times"]%string
    else recs in
  {| h_status := status; h_successRate := successRate;
     h_recommendations := recs; h_lastError := lastError st;
     h_lastSuccess := lastSuccess st |}.

(** [array.slice(0, end)] for an integer [end]: a negative [end] counts
    from the end of the array. *)
Definition slice_to {A} (l : list A) (end_ : Z) : list A :=
  let len := Z.of_nat (length l) in
  let final := if end_ <? 0 then Z.max (len + end_) 0 else Z.min end_ len in
  take (Z.to_nat final) l.

(** [getRecentErrors(limit = 10)] for an integer [limit] ([None] when it
    is [undefined]). *)
Definition getRecentErrors (limit : option Z) (st : Stats) : list errorEntry :=
  slice_to (errors st) (match limit with Some n => n | None => 10 end).

End APIMonitor.

(* ------------------------------------------------------------------ *)
(** ** Response parsing ([AIService.parseAIResponse], [extractListItems]) *)

(** The object [parseAIResponse] returns. *)
Record Analysis := {
  matchingPercentage : Z;
  strengths : list jsstr;
  areasToImprove : list jsstr;
  detailedAnalysis : jsstr
}.

Module Parse.

(** [\s] and the characters [String.prototype.trim] removes: WhiteSpace
    and LineTerminator code units. *)
Definition is_ws (c : Z) : bool :=
  bool_decide (c ∈ [9; 10; 11; 12; 13; 32; 160; 5760; 8232; 8233; 8239;
                    8287; 12288; 65279]) ||
  ((8192 <=? c) && (c <=? 8202)).

(** [\d] *)
Definition is_digit (c : Z) : bool := (48 <=? c) && (c <=? 57).

(** Canonicalisation of the [i] flag (no [u] flag) on the code units that
    can match the ASCII letters of the labels. *)
Definition canon (c : Z) : Z := if (97 <=? c) && (c <=? 122) then c - 32 else c.

Fixpoint prefix_ci (p s : jsstr) : bool :=
  match p, s with
  | [], _ => true
  | c :: p', d :: s' => (canon c =? canon d) && prefix_ci p' s'
  | _ :: _, [] => false
  end.

Fixpoint drop_ws (s : jsstr) : jsstr :=
  match s with
  | c :: s' => if is_ws c then drop_ws s' else s
  | [] => []
  end.

Fixpoint take_digits (s : jsstr) : jsstr :=
  match s with
  | c :: s' => if is_digit c then c :: take_digits s' else []
  | [] => []
  end.

(** [trim()] *)
Definition trim (s : jsstr) : jsstr := rev (drop_ws (rev (drop_ws s))).

Definition label_pct := js "MATCHING_PERCENTAGE:".
Definition label_str := js "STRENGTHS:".
Definition label_areas := js "AREAS_TO_IMPROVE:".
Definition label_detail := js "DETAILED_ANALYSIS:".

(** [response.match(/MATCHING_PERCENTAGE:\s*(\d+)/i)]: group 1 of the
    leftmost match. *)
Fixpoint match_pct (s : jsstr) : option jsstr :=
  match s with
  | [] => None
  | _ :: s' =>
      let here :=
        if prefix_ci label_pct s then
          match take_digits (drop_ws (drop (length label_pct) s)) with
          | [] => None
          | ds => Some ds
          end
        else None in
      match here with Some ds => Some ds | None => match_pct s' end
  end.

(** The text after the leftmost occurrence of [label] ([/label(.*?).../is]
    always matches there, the lazy group can grow to the end). *)
Fixpoint after_ci (label s : jsstr) : option jsstr :=
  match s with
  | [] => None
  | _ :: s' => if prefix_ci label s then Some (drop (length label) s)
               else after_ci label s'
  end.

(** [(.*?)(?=stop|$)]: the text up to the first occurrence of [stop]. *)
Fixpoint upto_ci (stop s : jsstr) : jsstr :=
  match s with
  | [] => []
  | c :: s' => if prefix_ci stop s then [] else c :: upto_ci stop s'
  end.

(** [parseInt(ds, 10)] on a string of decimal digits; the double it
    returns and the exact value agree after the clamp to [[0, 100]]. *)
Definition parseInt (ds : jsstr) : Z :=
  fold_left (fun acc d => acc * 10 + (d - 48)) ds 0.

(** [text.split('\n')] *)
Fixpoint split_nl_aux (cur : jsstr) (s : jsstr) : list jsstr :=
  match s with
  | [] => [rev cur]
  | c :: s' => if c =? 10 then rev cur :: split_nl_aux [] s'
               else split_nl_aux (c :: cur) s'
  end.
Definition split_nl (s : jsstr) : list jsstr := split_nl_aux [] s.

(** [/^[-*•]\s/] *)
Definition bullet_prefix (l : jsstr) : bool :=
  match l with
  | c :: d :: _ => bool_decide (c ∈ [45; 42; 8226]) && is_ws d
  | _ => false
  end.

(** [/^\d+\.\s/]: the length of the match, if any. *)
Definition num_prefix (l : jsstr) : option nat :=
  let ds := take_digits l in
  match ds, drop (length ds) l with
  | _ :: _, 46 :: d :: _ => if is_ws d then Some (length ds + 2)%nat else None
  | _, _ => None
  end.

Definition nonempty (l : jsstr) : bool := negb (Nat.eqb (length l) 0).

Definition extractListItems (text : jsstr) : list jsstr :=
  if negb (nonempty text) then [] else
  let lines := List.filter nonempty (map trim (split_nl text)) in
  let items := List.filter
                 (fun line => bullet_prefix line || bool_decide (is_Some (num_prefix line)))
                 lines in
  let items := map (fun line =>
                 let line := if bullet_prefix line then drop 2 line else line in
                 let line := match num_prefix line with
                             | Some n => drop n line | None => line end in
                 trim line) items in
  List.filter nonempty items.

(** [parseAIResponse(response)] where [response] is the message content,
    [None] when it is [null].  On a string no step of the [try] block can
    throw; on [null] the [catch] block throws again at
    [response.substring]. *)
Definition parseAIResponse (response : option jsstr) : outcome Analysis jserr :=
  match response with
  | None => Throw type_error
  | Some s =>
      let matchingPercentage :=
        match match_pct s with Some ds => parseInt ds | None => 50 end in
      let strengths :=
        match after_ci label_str s with
        | Some t => extractListItems (upto_ci label_areas t) | None => [] end in
      let areasToImprove :=
        match after_ci label_areas s with
        | Some t => extractListItems (upto_ci label_detail t) | None => [] end in
      let detailed :=
        match after_ci label_detail s with Some t => trim t | None => s end in
      Ok {| matchingPercentage := Z.min 100 (Z.max 0 matchingPercentage);
            strengths := take 5 strengths;
            areasToImprove := take 5 areasToImprove;
            detailedAnalysis := take 2000 detailed |}
  end.

End Parse.

(* ------------------------------------------------------------------ *)
(** ** JavaScript values and [JSON.stringify] *)

(** Values as [JSON.stringify] sees them.  Numbers are the integers of
    magnitude below [10^21] (printed in plain decimal); objects list their
    own enumerable properties in order, with distinct keys. *)
Inductive jsval : Type :=
| JUndefined
| JNull
| JBool (b : bool)
| JNum (n : Z)
| JStr (s : jsstr)
| JArr (l : list jsval)
| JObj (props : list (jsstr * jsval)).

Abbreviation jsobj := (list (jsstr * jsval)).

Fixpoint lookup_prop (k : jsstr) (ps : jsobj) : jsval :=
  match ps with
  | [] => JUndefined
  | (k', v) :: ps' => if bool_decide (k = k') then v else lookup_prop k ps'
  end.

(** [o.k] on an object. *)
Definition prop (o : jsobj) (k : string) : jsval := lookup_prop (js k) o.

(** [v?.k]: [undefined] on [undefined] and [null], and on the primitive
    values and arrays, which have no property of the names read here. *)
Definition prop_opt (v : jsval) (k : string) : jsval :=
  match v with JObj ps => lookup_prop (js k) ps | _ => JUndefined end.

Definition truthy (v : jsval) : bool :=
  match v with
  | JUndefined | JNull => false
  | JBool b => b
  | JNum n => negb (n =? 0)
  | JStr s => negb (Nat.eqb (length s) 0)
  | JArr _ | JObj _ => true
  end.

(** [v || d] *)
Definition or_else (v d : jsval) : jsval := if truthy v then v else d.

Module JSON.

Fixpoint dec_aux (fuel : nat) (n : Z) (acc : jsstr) : jsstr :=
  match fuel with
  | O => acc
  | S f => let acc' := (48 + n mod 10) :: acc in
           if n <? 10 then acc' else dec_aux f (n / 10) acc'
  end.

(** [String(n)] for an integer [n] below [10^21] in magnitude. *)
Definition dec (n : Z) : jsstr :=
  if n <? 0 then 45 :: dec_aux (S (Z.to_nat (Z.log2 (- n)))) (- n) []
  else dec_aux (S (Z.to_nat (Z.log2 n))) n [].

Definition hexdigit (d : Z) : Z := if d <? 10 then 48 + d else 87 + d.

(** [\uXXXX], lower-case hex digits. *)
Definition u_escape (c : Z) : jsstr :=
  [92; 117; hexdigit (c / 4096 mod 16); hexdigit (c / 256 mod 16);
   hexdigit (c / 16 mod 16); hexdigit (c mod 16)].

Definition escape_char (c : Z) : jsstr :=
  if c =? 34 then [92; 34]
  else if c =? 92 then [92; 92]
  else if c =? 8 then [92; 98]
  else if c =? 12 then [92; 102]
  else if c =? 10 then [92; 110]
  else if c =? 13 then [92; 114]
  else if c =? 9 then [92; 116]
  else if c <? 32 then u_escape c
  else [c].

Definition is_high (c : Z) : bool := (55296 <=? c) && (c <=? 56319).
Definition is_low (c : Z) : bool := (56320 <=? c) && (c <=? 57343).

(** QuoteJSONString: lone surrogates are escaped too. *)
Fixpoint escape_from (prev : Z) (s : jsstr) : jsstr :=
  match s with
  | [] => []
  | c :: s' =>
      let next := match s' with [] => -1 | d :: _ => d end in
      let lone := (is_high c && negb (is_low next)) ||
                  (is_low c && negb (is_high prev)) in
      (if lone then u_escape c else escape_char c) ++ escape_from c s'
  end.

Definition quote (s : jsstr) : jsstr := [34] ++ escape_from (-1) s ++ [34].

Fixpoint join (sep : jsstr) (l : list jsstr) : jsstr :=
  match l with
  | [] => []
  | [x] => x
  | x :: l' => x ++ sep ++ join sep l'
  end.

(** [JSON.stringify(v)]; [None] when the result is [undefined]. *)
Fixpoint stringify (v : jsval) : option jsstr :=
  match v with
  | JUndefined => None
  | JNull => Some (js "null")
  | JBool b => Some (js (if b then "true" else "false"))
  | JNum n => Some (dec n)
  | JStr s => Some (quote s)
  | JArr l =>
      let fix items (l : list jsval) : list jsstr :=
        match l with
        | [] => []
        | x :: l' =>
            match stringify x with Some t => t | None => js "null" end :: items l'
        end in
      Some ([91] ++ join [44] (items l) ++ [93])
  | JObj ps =>
      let fix members (ps : jsobj) : list jsstr :=
        match ps with
        | [] => []
        | (k, x) :: ps' =>
            match stringify x with
            | Some t => (quote k ++ [58] ++ t) :: members ps'
            | None => members ps'
            end
        end in
      Some ([123] ++ join [44] (members ps) ++ [125])
  end.

End JSON.

(* ------------------------------------------------------------------ *)
(** ** AICache.generateKey *)

Module Key.
Section Key.
(** [crypto.createHash('sha256').update(s).digest('hex')] *)
Context (sha256_hex : jsstr -> string).

Definition userKey (userProfile : jsobj) : jsval :=
  JObj [(js "skills", or_else (prop_opt (prop userProfile "otherInfo") "skills") (JArr []));
        (js "experience", or_else (prop_opt (prop userProfile "professionalInfo") "experienceYears") (JNum 0));
        (js "currentTitle", or_else (prop_opt (prop userProfile "professionalInfo") "currentTitle") (JStr []));
        (js "education", or_else (prop_opt (prop userProfile "otherInfo") "education") (JArr []))].

Definition jobKey (jobDetails : jsobj) : jsval :=
  JObj [(js "title", or_else (prop jobDetails "jobTitle") (JStr []));
        (js "description", or_else (prop jobDetails "jobDescription") (JStr []));
        (js "requirements", or_else (prop jobDetails "requirements") (JStr []));
        (js "company", or_else (prop jobDetails "company") (JStr []))].

(** [JSON.stringify({ user: userKey, job: jobKey })] *)
Definition combined (userProfile jobDetails : jsobj) : jsstr :=
  match JSON.stringify (JObj [(js "user", userKey userProfile);
                              (js "job", jobKey jobDetails)]) with
  | Some s => s
  | None => []
  end.

Definition generateKey (userProfile jobDetails : jsobj) : string :=
  sha256_hex (combined userProfile jobDetails).
End Key.
End Key.

(* ------------------------------------------------------------------ *)
(** ** AIService.buildJobPostingSummary *)

Module JobSummary.

(** [ToString(v)], as a template literal and [Array.prototype.join] apply
    it; [None] for the [TypeError] of an object whose own [toString]
    property is not a function (a JSON value is never a function), so that
    neither [toString] nor [valueOf] gives a primitive. *)
Fixpoint to_string (v : jsval) : option jsstr :=
  match v with
  | JUndefined => Some (js "undefined")
  | JNull => Some (js "null")
  | JBool b => Some (js (if b then "true" else "false"))
  | JNum n => Some (JSON.dec n)
  | JStr s => Some s
  | JArr l =>
      (* [join(',')]: [undefined] and [null] elements become [''] *)
      let fix elems (l : list jsval) : option (list jsstr) :=
        match l with
        | [] => Some []
        | x :: l' =>
            match (match x with JUndefined | JNull => Some [] | _ => to_string x end),
                  elems l' with
            | Some t, Some ts => Some (t :: ts)
            | _, _ => None
            end
        end in
      match elems l with Some ts => Some (JSON.join (js ",") ts) | None => None end
  | JObj ps =>
      if bool_decide (js "toString" ∈ map fst ps) then None
      else Some (js "[object Object]")
  end.

(** [if (v) parts.push(`<label>${v}`)]: the lines pushed. *)
Definition line_if (label : string) (v : jsval) : option (list jsstr) :=
  if truthy v then
    match to_string v with Some s => Some [js label ++ s] | None => None end
  else Some [].

(** [buildJobPostingSummary(jobDetails)]: [parts.join('\n')]; the
    description is pushed as it is and converted by [join]. *)
Definition buildJobPostingSummary (jobDetails : jsobj) : option jsstr :=
  match line_if "- Job Title: " (prop jobDetails "jobTitle"),
        line_if "- Company: " (prop jobDetails "company"),
        line_if "- Location: " (prop jobDetails "location"),
        (if truthy (prop jobDetails "jobDescription") then
           match to_string (prop jobDetails "jobDescription") with
           | Some d => Some [10 :: js "**Job Description:**"; d]
           | None => None
           end
         else Some []) with
  | Some t, Some c, Some l, Some d =>
      Some (JSON.join [10] (js "**Job Posting Details:**" :: t ++ c ++ l ++ d))
  | _, _, _, _ => None
  end.

End JobSummary.

(* ------------------------------------------------------------------ *)
(** ** AIService.analyzeJobMatch *)

Module Orchestrator.
Import APIMonitor.

(** The provider's response: the [message.content] of each of
    [completion.choices] ([None] for [null]). *)
Record Completion := { choices : list (option jsstr) }.

(** The process state an invocation reads and writes: the two singletons,
    and the environment as oracles consumed in order (clock readings,
    provider responses, [Math.random()] results) with the delays waited. *)
Record World := {
  cache : gmap string (AICache.CacheEntry Analysis);
  mon : Stats;
  clock : nat -> Z;
  ticks : nat;
  provider : nat -> outcome Completion jserr;
  calls : nat;
  rand : nat -> Z;
  rands : nat;
  waits : list Z
}.

Definition set_cache (c : gmap string (AICache.CacheEntry Analysis)) (w : World) : World :=
  {| cache := c; mon := mon w; clock := clock w; ticks := ticks w;
     provider := provider w; calls := calls w; rand := rand w;
     rands := rands w; waits := waits w |}.

Definition set_mon (m : Stats) (w : World) : World :=
  {| cache := cache w; mon := m; clock := clock w; ticks := ticks w;
     provider := provider w; calls := calls w; rand := rand w;
     rands := rands w; waits := waits w |}.

(** [Date.now()] / [new Date()] *)
Definition now (w : World) : Z * World :=
  (clock w (ticks w),
   {| cache := cache w; mon := mon w; clock := clock w; ticks := S (ticks w);
      provider := provider w; calls := calls w; rand := rand w;
      rands := rands w; waits := waits w |}).

(** [this.openai.chat.completions.create(...)]: the request (built from
    the prompt) is sent and the next response of the oracle comes back. *)
Definition call_provider (w : World) : outcome Completion jserr * World :=
  (provider w (calls w),
   {| cache := cache w; mon := mon w; clock := clock w; ticks := ticks w;
      provider := provider w; calls := S (calls w); rand := rand w;
      rands := rands w; waits := waits w |}).

Definition random (w : World) : Z * World :=
  (rand w (rands w),
   {| cache := cache w; mon := mon w; clock := clock w; ticks := ticks w;
      provider := provider w; calls := calls w; rand := rand w;
      rands := S (rands w); waits := waits w |}).

Definition wait (d : Z) (w : World) : World :=
  {| cache := cache w; mon := mon w; clock := clock w; ticks := ticks w;
     provider := provider w; calls := calls w; rand := rand w;
     rands := rands w; waits := waits w ++ [d] |}.

Definition fx : Retry.effects :=
  {| Retry.call := call_provider; Retry.random := random; Retry.wait := wait |}.

(** The [shouldRetry] option: [apiMonitor.recordRetry()], then the test. *)
Definition shouldRetry (error : jserr) (w : World) : bool * World :=
  (is_retriable error, set_mon (recordRetry (mon w)) w).

(** [{ maxRetries: 3, baseDelay: 2000, maxDelay: 30000, shouldRetry }] *)
Definition opts : Retry.options :=
  {| Retry.maxRetries := 3; Retry.baseDelay := F64.of_Z 2000;
     Retry.maxDelay := F64.of_Z 30000; Retry.shouldRetry := shouldRetry |}.

Definition show_opt_str (m : option jsstr) : jsstr :=
  match m with Some s => s | None => js "undefined" end.

Definition show_opt_num (m : option Z) : jsstr :=
  match m with Some n => JSON.dec n | None => js "undefined" end.

Definition msg_429 : jsstr :=
  js ("OpenAI API error: 429 You exceeded your current quota, please check your plan and billing details. For more information on this error, read the docs: https://platform.openai.com/docs/guides/error-codes/api-errors.").

(** The error the [catch] block throws for [error] once it is recorded. *)
Definition classify (error : jserr) : jserr :=
  if err_is_api error then
    if opt_Z_eqb (err_status error) 429 ||
       opt_str_eqb (err_code error) (js "rate_limit_exceeded")
    then new_Error msg_429
    else if opt_str_eqb (err_code error) (js "insufficient_quota")
    then new_Error (js "OpenAI API quota exceeded. Please check your billing settings or try again later.")
    else if opt_Z_eqb (err_status error) 401
    then new_Error (js "OpenAI API authentication failed. Please check your API key.")
    else if opt_Z_eqb (err_status error) 400
    then new_Error (js "OpenAI API error: Invalid request - " ++ show_opt_str (err_message error))
    else new_Error (js "OpenAI API error: " ++ show_opt_num (err_status error) ++ js " " ++
                    match err_message error with
                    | Some ((_ :: _) as m) => m
                    | _ => js "Failed to analyze job match"
                    end)
  else if opt_str_eqb (err_code error) (js "ECONNREFUSED") ||
          opt_str_eqb (err_code error) (js "ENOTFOUND")
  then new_Error (js "Unable to connect to OpenAI API. Please check your internet connection.")
  else new_Error (js "AI analysis failed: " ++ show_opt_str (err_message error)).

(** The [catch (error)] block. *)
Definition catch (error : option jserr) (w : World) : outcome Analysis jserr * World :=
  let '(t1, w) := now w in
  match error with
  | None =>
      let '(r, m) := recordFailure t1 t1 None (mon w) in
      (match r with Throw e => Throw e | Ok _ => Throw type_error end, set_mon m w)
  | Some e =>
      let '(t2, w) := now w in
      let '(r, m) := recordFailure t1 t2 (Some e) (mon w) in
      (match r with Throw e' => Throw e' | Ok _ => Throw (classify e) end, set_mon m w)
  end.

Section Invocation.
Context (sha256_hex : jsstr -> string).

(** [analyzeJobMatch(userProfile, jobDetails)].  The profile and job
    summaries and the prompt are strings sent to the provider; what the
    provider answers is the oracle [provider]. *)
Definition analyzeJobMatch (userProfile jobDetails : jsobj) (w : World)
  : outcome Analysis jserr * World :=
  let cacheKey := Key.generateKey sha256_hex userProfile jobDetails in
  let '(t, w) := now w in
  let '(cachedResult, c) := AICache.get cacheKey t (cache w) in
  let w := set_cache c w in
  match cachedResult with
  | Some r => (Ok r, set_mon (recordCacheHit (mon w)) w)
  | None =>
      let w := set_mon (recordCall (mon w)) w in
      let '(res, w) := Retry.retryWithBackoff opts fx w in
      match res with
      | Throw error => catch error w
      | Ok completion =>
          match choices completion with
          | [] => catch (Some type_error) w
          | analysis :: _ =>
              match Parse.parseAIResponse analysis with
              | Throw e => catch (Some e) w
              | Ok parsedAnalysis =>
                  let '(t1, w) := now w in
                  let w := set_cache (AICache.set cacheKey parsedAnalysis
                                        AICache.default_ttl t1 (cache w)) w in
                  let '(t2, w) := now w in
                  (Ok parsedAnalysis, set_mon (recordSuccess t2 (mon w)) w)
              end
          end
      end
  end.
End Invocation.

End Orchestrator.

(* ------------------------------------------------------------------ *)
(** ** Sample inputs *)

Module Samples.
Import Orchestrator.

(** A digest that ignores its input, so the key of every request is ["k"]. *)
Definition sample_sha (_ : jsstr) : string := "k".

Definition sample_analysis : Analysis :=
  {| matchingPercentage := 80; strengths := [js "TypeScript"];
     areasToImprove := [js "Kubernetes"]; detailedAnalysis := js "Good fit." |}.

(** [OpenAI.APIError] with status 400 (not retriable). *)
Definition err400 : jserr :=
  {| err_message := Some (js "400 Invalid request"); err_status := Some 400;
     err_code := None; err_response_status := None; err_is_api := true |}.

(** [OpenAI.APIError] with status 429 and code [insufficient_quota]. *)
Definition err429 : jserr :=
  {| err_message := Some (js "429 You exceeded your current quota");
     err_status := Some 429; err_code := Some (js "insufficient_quota");
     err_response_status := None; err_is_api := true |}.

Definition sample_world (c : gmap string (AICache.CacheEntry Analysis))
    (clk : nat -> Z) (prov : nat -> outcome Completion jserr) (rnd : nat -> Z)
    : World :=
  {| cache := c; mon := APIMonitor.initial; clock := clk; ticks := 0;
     provider := prov; calls := 0; rand := rnd; rands := 0; waits := [] |}.

(** Two profiles of the schema of [auth.controller.js] differing only in
    their (top-level) [education], and a job posting. *)
Definition profile_bsc : jsobj :=
  [(js "professionalInfo", JObj [(js "experienceYears", JNum 3);
                                 (js "currentTitle", JStr (js "Engineer"))]);
   (js "otherInfo", JObj [(js "skills", JArr [JStr (js "Go")])]);
   (js "education", JObj [(js "degree", JStr (js "BSc"))])].

Definition profile_phd : jsobj :=
  [(js "professionalInfo", JObj [(js "experienceYears", JNum 3);
                                 (js "currentTitle", JStr (js "Engineer"))]);
   (js "otherInfo", JObj [(js "skills", JArr [JStr (js "Go")])]);
   (js "education", JObj [(js "degree", JStr (js "PhD"))])].

Definition sample_job : jsobj :=
  [(js "jobTitle", JStr (js "Backend Engineer")); (js "company", JStr (js "Acme"))].

End Samples.

(* ================================================================== *)
(** * Properties *)

(* ------------------------------------------------------------------ *)
(** ** Rounding of doubles *)

Module F64L.
Import F64.






End F64L.

(* ------------------------------------------------------------------ *)
(** ** Response cache *)

Module CacheFacts.
Import AICache.

Lemma get_hit {V} (key : string) (now : Z) (c : gmap string (CacheEntry V)) e :
  c !! key = Some e -> now <= expiresAt e -> get key now c = (Some (data e), c).
Proof.
  intros Hk Hle. unfold get. rewrite Hk.
  destruct (now >? expiresAt e) eqn:E; [apply Z.gtb_lt in E; lia|reflexivity].
Qed.

Lemma get_expired {V} (key : string) (now : Z) (c : gmap string (CacheEntry V)) e :
  c !! key = Some e -> expiresAt e < now -> get key now c = (None, delete key c).
Proof.
  intros Hk Hlt. unfold get. rewrite Hk.
  destruct (now >? expiresAt e) eqn:E; [reflexivity|].
  rewrite Z.gtb_ltb in E. apply Z.ltb_ge in E. lia.
Qed.

Lemma get_miss {V} (key : string) (now : Z) (c : gmap string (CacheEntry V)) :
  c !! key = None -> get key now c = (None, c).
Proof. intros Hk. unfold get. rewrite Hk. reflexivity. Qed.

(** Whatever [get] returns, the map it leaves is the old one, or the old
    one without the key's expired entry. *)
Lemma get_cases {V} (key : string) (now : Z) (c : gmap string (CacheEntry V)) :
  (exists e, c !! key = Some e /\ now <= expiresAt e /\
             get key now c = (Some (data e), c)) \/
  (c !! key = None /\ get key now c = (None, c)) \/
  (exists e, c !! key = Some e /\ expiresAt e < now /\
             get key now c = (None, delete key c)).
Proof.
  destruct (c !! key) as [e|] eqn:Hk.
  - destruct (Z_le_gt_dec now (expiresAt e)).
    + left. exists e. split; [done|]. split; [lia|]. by apply get_hit.
    + right; right. exists e. split; [done|]. split; [lia|]. apply (get_expired key now c e); [done|lia].
  - right; left. split; [done|]. by apply get_miss.
Qed.

(** C2 (counterexample).  An entry stored at time 100 with ttl 10 has
    [expiresAt = 110] and is still returned by a [get] at time 110,
    although [now < expiresAt] fails; and with a negative ttl a [set]
    followed at once by [get] returns nothing. *)
Lemma cache_boundary_counterexample :
  let c := set "k" 7 10 100 (∅ : gmap string (CacheEntry Z)) in
  get "k" 110 c = (Some 7, c) /\ ~ (110 < 100 + 10) /\
  fst (get "k" 100 (set "k" 7 (-1) 100 (∅ : gmap string (CacheEntry Z)))) = None.
Proof. vm_compute. repeat split; congruence. Qed.

(** C2 (amended).  For a ttl of at least 0, [set(key, value, ttl)] at
    time [t] followed by [get(key)] at any time [t'] with
    [t <= t' <= t + ttl] (in particular at once) returns the stored value
    unchanged and leaves the map as it is; a [get] at a time after an
    entry's [expiresAt] returns absent and deletes the entry; and [get]
    returns an entry only if [now <= expiresAt]. *)
Theorem cache_set_get_expiry {V} (key : string) (v : V) (ttl t : Z)
    (c : gmap string (CacheEntry V)) :
  0 <= ttl ->
  (forall t', t <= t' <= t + ttl ->
     get key t' (set key v ttl t c) = (Some v, set key v ttl t c)) /\
  (forall (c0 : gmap string (CacheEntry V)) e now,
     c0 !! key = Some e -> expiresAt e < now ->
     get key now c0 = (None, delete key c0) /\ delete key c0 !! key = None) /\
  (forall (c0 : gmap string (CacheEntry V)) now v0 c0',
     get key now c0 = (Some v0, c0') ->
     exists e, c0 !! key = Some e /\ data e = v0 /\ now <= expiresAt e /\ c0' = c0).
Proof.
  intros Httl. split; [|split].
  - intros t' Ht'. apply (get_hit key t' _ (Build_CacheEntry v (t + ttl))).
    + unfold set. by rewrite lookup_insert_eq.
    + simpl. lia.
  - intros c0 e now Hk Hlt. split; [by apply (get_expired key now c0 e)|].
    by rewrite lookup_delete_eq.
  - intros c0 now v0 c0' Hget.
    destruct (get_cases key now c0) as [[e [Hk [Hle Hg]]]|[[Hk Hg]|[e [Hk [Hlt Hg]]]]];
      rewrite Hg in Hget; inversion Hget; subst.
    exists e. auto.
Qed.

Lemma cache_set_get_expiry_witness :
  0 <= 10 /\
  get "k" 5 (set "k" 1 10 0 (∅ : gmap string (CacheEntry Z))) =
    (Some 1, set "k" 1 10 0 (∅ : gmap string (CacheEntry Z))).
Proof.
  split; [lia|].
  apply (proj1 (cache_set_get_expiry "k" 1 10 0 ∅ ltac:(lia))). lia.
Defined.

End CacheFacts.

(* ------------------------------------------------------------------ *)
(** ** Call monitor *)

Module MonitorFacts.
Import APIMonitor.

(** C7.  [recordFailure(e)] puts the entry [(timestamp, message, status,
    code)] at the front of the log and keeps the first 50 entries (newest
    first), adds one failed call, and adds one quota error exactly when the
    message contains "quota" or "429" or the status is 429; the other
    counters are unchanged. *)
Theorem recordFailure_spec (now now' : Z) (e : jserr) (st : Stats) :
  let entry := {| timestamp := now'; message := err_message e;
                  status := err_status e; code := err_code e |} in
  let '(r, st') := recordFailure now now' (Some e) st in
  r = Ok tt /\
  errors st' = take 50 (entry :: errors st) /\
  head (errors st') = Some entry /\
  (length (errors st') <= 50)%nat /\
  failedCalls st' = failedCalls st + 1 /\
  quotaErrors st' =
    quotaErrors st +
    (if opt_includes (err_message e) (js "quota") ||
        opt_includes (err_message e) (js "429") ||
        opt_Z_eqb (err_status e) 429 then 1 else 0) /\
  lastError st' = Some now /\
  totalCalls st' = totalCalls st /\ successfulCalls st' = successfulCalls st /\
  cacheHits st' = cacheHits st /\ retries st' = retries st /\
  lastSuccess st' = lastSuccess st.
Proof.
  cbn zeta. unfold recordFailure, is_quota_error.
  set (entry := {| timestamp := now'; message := err_message e;
                   status := err_status e; code := err_code e |}).
  assert (Htake : (if Nat.ltb maxErrors (length (entry :: errors st))
                   then take maxErrors (entry :: errors st) else entry :: errors st)
                  = take 50 (entry :: errors st)).
  { unfold maxErrors.
    destruct (Nat.ltb 50 (length (entry :: errors st))) eqn:E; [done|].
    apply Nat.ltb_ge in E. rewrite take_ge; [done|]. lia. }
  rewrite Htake. simpl.
  repeat split; try reflexivity.
  - rewrite length_take. lia.
  - destruct (_ || _ || _); lia.
Qed.

Ltac zbool_lia :=
  repeat match goal with
         | |- context [?a <=? ?b] => destruct (Z.leb_spec a b)
         | |- context [?a <? ?b] => destruct (Z.ltb_spec a b)
         end; simpl; lia.

(** The integer form of the ratio tests of [getHealth]. *)
Lemma rate_lt_half (s t : Z) :
  0 < t -> Qltb (inject_Z s / inject_Z t) (1 # 2) = (2 * s <? t).
Proof.
  intros Ht. destruct t as [|p|p]; try lia.
  unfold Qltb, Qle_bool. simpl. zbool_lia.
Qed.

Lemma rate_lt_four_fifths (s t : Z) :
  0 < t -> Qltb (inject_Z s / inject_Z t) (4 # 5) = (5 * s <? 4 * t).
Proof.
  intros Ht. destruct t as [|p|p]; try lia.
  unfold Qltb, Qle_bool. simpl. zbool_lia.
Qed.

Lemma quota_frequent_int (st : Stats) :
  isQuotaErrorFrequent st =
    (0 <? failedCalls st) && (3 * failedCalls st <? 10 * quotaErrors st).
Proof.
  unfold isQuotaErrorFrequent.
  destruct (0 <? failedCalls st) eqn:Hf; [|reflexivity]. simpl.
  apply Z.ltb_lt in Hf. destruct (failedCalls st) as [|p|p]; try lia.
  unfold Qltb, Qle_bool. simpl. zbool_lia.
Qed.

Lemma getHealth_status_eq (st : Stats) :
  h_status (getHealth st) =
    if (0 <? totalCalls st) && (2 * successfulCalls st <? totalCalls st) then critical
    else if ((0 <? totalCalls st) && (5 * successfulCalls st <? 4 * totalCalls st)) ||
            isQuotaErrorFrequent st
    then warning else healthy.
Proof.
  unfold getHealth.
  destruct (0 <? totalCalls st) eqn:Ht.
  - apply Z.ltb_lt in Ht.
    rewrite (rate_lt_half (successfulCalls st) (totalCalls st) Ht),
      (rate_lt_four_fifths (successfulCalls st) (totalCalls st) Ht). simpl.
    destruct (2 * successfulCalls st <? totalCalls st),
      (5 * successfulCalls st <? 4 * totalCalls st), (isQuotaErrorFrequent st);
      simpl; destruct (successfulCalls st * 2 <? retries st); reflexivity.
  - simpl. destruct (isQuotaErrorFrequent st); simpl;
      destruct (successfulCalls st * 2 <? retries st); reflexivity.
Qed.

(** C5 (counterexample).  10 calls, 9 successes, one failure that is not
    a quota error, 19 retries: the retries exceed twice the successful
    calls, yet the status is healthy. *)
Lemma health_retries_counterexample :
  let st := {| totalCalls := 10; successfulCalls := 9; failedCalls := 1;
               cacheHits := 0; quotaErrors := 0; retries := 19;
               lastError := None; lastSuccess := None; errors := [] |} in
  retries st > 2 * successfulCalls st /\ h_status (getHealth st) = healthy.
Proof. split; [cbn; lia | vm_compute; reflexivity]. Qed.

(** C5 (amended).  With the success rate taken as 100% when there was no
    call, [getHealth()] is critical exactly when the success rate is below
    50%; warning exactly when it is not critical and the success rate is
    below 80% or quota errors exceed 30% of the failed calls; healthy
    otherwise.  The retry count never changes the status (it only adds
    recommendations).  In particular 10 calls with 4 successes give
    critical, with 7 successes warning, and with 9 successes and no quota
    errors healthy. *)
Theorem getHealth_status (st : Stats) :
  let t := totalCalls st in
  let s := successfulCalls st in
  let is_critical := 0 < t /\ 2 * s < t in
  let is_warning := (0 < t /\ 5 * s < 4 * t) \/
                    (0 < failedCalls st /\ 3 * failedCalls st < 10 * quotaErrors st) in
  (h_status (getHealth st) = critical <-> is_critical) /\
  (h_status (getHealth st) = warning <-> ~ is_critical /\ is_warning) /\
  (h_status (getHealth st) = healthy <-> ~ is_critical /\ ~ is_warning) /\
  (forall n, h_status (getHealth
     {| totalCalls := totalCalls st; successfulCalls := successfulCalls st;
        failedCalls := failedCalls st; cacheHits := cacheHits st;
        quotaErrors := quotaErrors st; retries := n;
        lastError := lastError st; lastSuccess := lastSuccess st;
        errors := errors st |}) = h_status (getHealth st)) /\
  (t = 10 -> s = 4 -> h_status (getHealth st) = critical) /\
  (t = 10 -> s = 7 -> h_status (getHealth st) = warning) /\
  (t = 10 -> s = 9 -> quotaErrors st = 0 -> h_status (getHealth st) = healthy).
Proof.
  cbn zeta. split; [|split; [|split; [|split]]].
  4: { intros n. rewrite !getHealth_status_eq, !quota_frequent_int. reflexivity. }
  all: rewrite !getHealth_status_eq, !quota_frequent_int;
    repeat match goal with
           | |- context [?a <? ?b] => destruct (Z.ltb_spec a b)
           end; simpl; intuition (try discriminate; try lia).
Qed.

Lemma getHealth_status_witness :
  h_status (getHealth {| totalCalls := 10; successfulCalls := 4; failedCalls := 6;
                         cacheHits := 0; quotaErrors := 0; retries := 0;
                         lastError := None; lastSuccess := None; errors := [] |})
  = critical.
Proof.
  apply (getHealth_status {| totalCalls := 10; successfulCalls := 4; failedCalls := 6;
                             cacheHits := 0; quotaErrors := 0; retries := 0;
                             lastError := None; lastSuccess := None; errors := [] |});
    reflexivity.
Defined.

End MonitorFacts.

(* ------------------------------------------------------------------ *)
(** ** Backoff executor *)

Module RetryFacts.

(** C3 (code bug).  With [maxRetries = 0] the loop body never runs: the
    operation is not called once, nothing else happens, and [undefined]
    (the initial [lastError]) is thrown. *)
Theorem retry_zero_max_retries {St A E : Type} (b m : Z)
    (sr : E -> St -> bool * St) (fx : @Retry.effects St A E) (s : St) :
  Retry.retryWithBackoff
    {| Retry.maxRetries := 0; Retry.baseDelay := b; Retry.maxDelay := m;
       Retry.shouldRetry := sr |} fx s = (Throw None, s).
Proof. reflexivity. Qed.

End RetryFacts.

(* ------------------------------------------------------------------ *)
(** ** Orchestrator *)

Module OrchestratorFacts.
Import Orchestrator APIMonitor.

(** The retry loop of [analyzeJobMatch] touches neither the cache nor the
    clock. *)
Lemma loop_frame fuel attempt le (w : World) :
  let w' := snd (Retry.loop opts fx fuel attempt le w) in
  cache w' = cache w /\ clock w' = clock w /\ ticks w' = ticks w.
Proof.
  revert attempt le w. induction fuel as [|fuel IH]; intros attempt le w; [done|].
  cbn [Retry.loop]. simpl.
  destruct (provider w (calls w)) as [v|err]; simpl; [done|].
  destruct (negb (is_retriable err) || (attempt =? 3 - 1)); simpl; [done|].
  destruct (IH (attempt + 1) (Some err)
              (wait (Retry.delay_of opts attempt (rand w (rands w)))
                 {| cache := cache w; mon := recordRetry (mon w); clock := clock w;
                    ticks := ticks w; provider := provider w; calls := S (calls w);
                    rand := rand w; rands := S (rands w); waits := waits w |}))
    as [H1 [H2 H3]].
  simpl in *. auto.
Qed.

Lemma retry_frame (w : World) :
  let w' := snd (Retry.retryWithBackoff opts fx w) in
  cache w' = cache w /\ clock w' = clock w /\ ticks w' = ticks w.
Proof. apply loop_frame. Qed.

(** The [catch] block records the failure and throws; the cache is left
    alone. *)
Lemma catch_spec error (w : World) :
  (exists e, fst (catch error w) = Throw e) /\ cache (snd (catch error w)) = cache w.
Proof.
  unfold catch. destruct error as [e|]; simpl; split; eauto.
Qed.

(** C1.  On a cache hit for the key of [(userProfile, jobDetails)]: the
    cached analysis is returned, the monitor records one cache hit, and
    nothing else changes (no provider call, no [recordCall], the cache as
    it was); only the clock reading is consumed.  And after a successful
    invocation that called the provider, a later invocation with the same
    inputs, while the entry written is still there and unexpired (up to
    the TTL after the write), is such a hit returning the same analysis. *)
Theorem cache_hit_no_provider (sha256_hex : jsstr -> string)
    (userProfile jobDetails : jsobj) :
  let key := Key.generateKey sha256_hex userProfile jobDetails in
  (forall (w : World) (e : AICache.CacheEntry Analysis),
     cache w !! key = Some e -> clock w (ticks w) <= AICache.expiresAt e ->
     analyzeJobMatch sha256_hex userProfile jobDetails w =
       (Ok (AICache.data e), set_mon (recordCacheHit (mon w)) (snd (now w)))) /\
  (forall (w w1 : World) (r : Analysis),
     analyzeJobMatch sha256_hex userProfile jobDetails w = (Ok r, w1) ->
     calls w1 <> calls w ->
     forall w2 : World,
       cache w2 !! key = cache w1 !! key ->
       clock w2 (ticks w2) <= clock w (S (ticks w)) + AICache.default_ttl ->
       analyzeJobMatch sha256_hex userProfile jobDetails w2 =
         (Ok r, set_mon (recordCacheHit (mon w2)) (snd (now w2)))).
Proof.
  intros key.
  assert (Hhit : forall (w : World) (e : AICache.CacheEntry Analysis),
     cache w !! key = Some e -> clock w (ticks w) <= AICache.expiresAt e ->
     analyzeJobMatch sha256_hex userProfile jobDetails w =
       (Ok (AICache.data e), set_mon (recordCacheHit (mon w)) (snd (now w)))).
  { intros w e He Ht. unfold analyzeJobMatch. fold key. simpl.
    unfold AICache.get. rewrite He.
    destruct (Z.gtb_spec (clock w (ticks w)) (AICache.expiresAt e)); [lia|].
    reflexivity. }
  split; [exact Hhit|].
  intros w w1 r Hrun Hcalls w2 Hc2 Ht2.
  unfold analyzeJobMatch in Hrun. fold key in Hrun. simpl in Hrun.
  destruct (CacheFacts.get_cases key (clock w (ticks w)) (cache w))
    as [[e [_ [_ Hg]]] | [[_ Hg] | [e [_ [_ Hg]]]]];
    rewrite Hg in Hrun; simpl in Hrun.
  { inversion Hrun; subst. simpl in Hcalls. congruence. }
  all: destruct (Retry.retryWithBackoff opts fx _) as [res wr] eqn:Hr;
    match type of Hr with Retry.retryWithBackoff _ _ ?x = _ =>
      pose proof (retry_frame x) as F end;
    rewrite Hr in F; simpl in F; destruct F as (Fc & Fk & Ft);
    destruct res as [comp|err];
    [| destruct (catch_spec err wr) as [[e' He'] _];
       rewrite Hrun in He'; discriminate];
    destruct (choices comp) as [|a rest];
    [ destruct (catch_spec (Some type_error) wr) as [[e' He'] _];
      rewrite Hrun in He'; discriminate |];
    destruct (Parse.parseAIResponse a) as [pa|pe];
    [| destruct (catch_spec (Some pe) wr) as [[e' He'] _];
       rewrite Hrun in He'; discriminate];
    injection Hrun as <- <-; simpl in Hc2; unfold AICache.set in Hc2;
    rewrite lookup_insert_eq in Hc2;
    apply (Hhit w2 _ Hc2); simpl; rewrite Fk, Ft; exact Ht2.
Qed.

(** C10.  An invocation that ends in an error writes no cache entry: the
    cache afterwards is the cache before with the key of the invocation
    removed, which only differs from it when an expired entry for that key
    was there and got evicted by the read. *)
Theorem error_path_cache (sha256_hex : jsstr -> string)
    (userProfile jobDetails : jsobj) (w w' : World) (err : jserr) :
  analyzeJobMatch sha256_hex userProfile jobDetails w = (Throw err, w') ->
  cache w' = delete (Key.generateKey sha256_hex userProfile jobDetails) (cache w).
Proof.
  intros Hrun. set (key := Key.generateKey sha256_hex userProfile jobDetails).
  unfold analyzeJobMatch in Hrun. fold key in Hrun. simpl in Hrun.
  destruct (CacheFacts.get_cases key (clock w (ticks w)) (cache w))
    as [[e [_ [_ Hg]]] | [[Hk Hg] | [e [_ [_ Hg]]]]];
    rewrite Hg in Hrun; simpl in Hrun; [discriminate| |].
  all: destruct (Retry.retryWithBackoff opts fx _) as [res wr] eqn:Hr;
    match type of Hr with Retry.retryWithBackoff _ _ ?x = _ =>
      pose proof (retry_frame x) as F end;
    rewrite Hr in F; simpl in F; destruct F as (Fc & Fk & Ft).
  all: assert (cache w' = cache wr) as ->;
    [ destruct res as [comp|e0];
      [ destruct (choices comp) as [|a rest];
        [| destruct (Parse.parseAIResponse a) as [pa|pe]; [discriminate|]] |];
      match type of Hrun with catch ?x ?y = _ =>
        destruct (catch_spec x y) as [_ Hc]; rewrite Hrun in Hc; exact Hc end
    | rewrite Fc ].
  - symmetry. apply delete_id. exact Hk.
  - reflexivity.
Qed.

Import Samples.

(** Witness of C1: an unexpired entry under ["k"] is a hit. *)
Lemma cache_hit_no_provider_witness :
  let e := AICache.Build_CacheEntry sample_analysis 100 in
  let w := sample_world {["k" := e]} (fun _ => 0) (fun _ => Throw err400)
             (fun _ => 0) in
  (cache w !! "k" = Some e /\ clock w (ticks w) <= AICache.expiresAt e) /\
  analyzeJobMatch sample_sha [] [] w =
    (Ok (AICache.data e), set_mon (recordCacheHit (mon w)) (snd (now w))).
Proof.
  intros e w. split; [split; [reflexivity | simpl; lia]|].
  apply (proj1 (cache_hit_no_provider sample_sha [] [])); [reflexivity | simpl; lia].
Defined.

(** Counterexample to C10: with an expired entry under the key and a
    provider failing with status 400, the invocation throws and the cache
    it leaves differs from the one it found (the entry is gone). *)
Lemma error_path_cache_counterexample :
  let w := sample_world {["k" := AICache.Build_CacheEntry sample_analysis 5]}
             (fun _ => 10) (fun _ => Throw err400) (fun _ => 0) in
  let '(r, w') := analyzeJobMatch sample_sha [] [] w in
  (exists e, r = Throw e) /\ cache w !! "k" <> None /\ cache w' !! "k" = None.
Proof.
  vm_compute. split; [eexists; reflexivity|]. split; [discriminate|reflexivity].
Qed.

(** Witness of C10: the run above, its error, and its cache. *)
Lemma error_path_cache_witness :
  let w := sample_world {["k" := AICache.Build_CacheEntry sample_analysis 5]}
             (fun _ => 10) (fun _ => Throw err400) (fun _ => 0) in
  analyzeJobMatch sample_sha [] [] w =
    (Throw (classify err400), snd (analyzeJobMatch sample_sha [] [] w)) /\
  cache (snd (analyzeJobMatch sample_sha [] [] w)) = delete "k" (cache w).
Proof.
  intros w. split; [vm_compute; reflexivity|].
  apply (error_path_cache sample_sha [] [] w _ (classify err400)).
  vm_compute. reflexivity.
Defined.

(** C6 (code bug).  The [shouldRetry] option calls [recordRetry] on every
    failure it is asked about, before deciding: a non-retriable 400 on the
    first call counts one retry although none happens (one call, no wait),
    and a quota error that exhausts the three attempts counts three
    retries for two performed (three calls, two waits). *)
Theorem retry_counter_counts_failures :
  (let '(_, w') := analyzeJobMatch sample_sha [] []
                     (sample_world ∅ (fun _ => 0) (fun _ => Throw err400) (fun _ => 0)) in
   calls w' = 1%nat /\ waits w' = [] /\ retries (mon w') = 1) /\
  (let '(_, w') := analyzeJobMatch sample_sha [] []
                     (sample_world ∅ (fun _ => 0) (fun _ => Throw err429) (fun _ => 0)) in
   calls w' = 3%nat /\ waits w' = [F64.of_Z 2000; F64.of_Z 4000] /\ retries (mon w') = 3).
Proof. vm_compute. repeat split. Qed.

End OrchestratorFacts.

(* ------------------------------------------------------------------ *)
(** ** Backoff delays of the provider call *)

Module BackoffFacts.
Import F64 F64L Orchestrator.







Import APIMonitor Samples.



End BackoffFacts.

(* ------------------------------------------------------------------ *)
(** ** Parsing of the completion *)

Module ParseFacts.
Import Parse.

(** C9.  On every completion string [parseAIResponse] returns normally; the
    score is the clamp to [[0, 100]] of the integer after the first
    [MATCHING_PERCENTAGE:] label (50 without one), both lists have at most
    5 items, the narrative at most 2000 code units, and without an
    [AREAS_TO_IMPROVE:] label the list of areas to improve is empty. *)
Theorem parseAIResponse_total (s : jsstr) :
  exists r : Analysis,
    parseAIResponse (Some s) = Ok r /\
    0 <= matchingPercentage r <= 100 /\
    matchingPercentage r =
      Z.min 100 (Z.max 0 (match match_pct s with
                          | Some ds => parseInt ds | None => 50 end)) /\
    (length (strengths r) <= 5)%nat /\
    (length (areasToImprove r) <= 5)%nat /\
    (length (detailedAnalysis r) <= 2000)%nat /\
    (after_ci label_areas s = None -> areasToImprove r = []).
Proof.
  eexists. split; [reflexivity|]. cbn [matchingPercentage strengths
    areasToImprove detailedAnalysis].
  split; [lia|]. split; [reflexivity|].
  rewrite !length_take. split; [lia|]. split; [lia|]. split; [lia|].
  intros ->. reflexivity.
Qed.

End ParseFacts.

(* ------------------------------------------------------------------ *)
(** ** Cache keys *)

Module KeyFacts.
Import Key Samples.

(** C8 (code bug).  [generateKey] reads the education at
    [userProfile.otherInfo.education], where neither user schema
    ([auth.controller.js], [auth.service.js]) keeps it: both keep
    [education] at the top level of the profile, where
    [buildUserProfileSummary] reads it.  So profiles that agree on
    [otherInfo] and [professionalInfo] get the same key, for every digest,
    whatever their (top-level) [education]. *)
Theorem generateKey_ignores_education (sha256_hex : jsstr -> string) (p1 p2 j : jsobj) :
  prop p1 "otherInfo" = prop p2 "otherInfo" ->
  prop p1 "professionalInfo" = prop p2 "professionalInfo" ->
  generateKey sha256_hex p1 j = generateKey sha256_hex p2 j.
Proof.
  intros Ho Hp. unfold generateKey, combined, userKey. rewrite Ho, Hp. reflexivity.
Qed.

(** Witness of C8: a BSc and a PhD profile, otherwise equal, and one
    posting. *)
Lemma generateKey_ignores_education_witness :
  prop profile_bsc "education" <> prop profile_phd "education" /\
  (prop profile_bsc "otherInfo" = prop profile_phd "otherInfo" /\
   prop profile_bsc "professionalInfo" = prop profile_phd "professionalInfo") /\
  generateKey sample_sha profile_bsc sample_job = generateKey sample_sha profile_phd sample_job.
Proof.
  split; [vm_compute; discriminate|]. split; [split; reflexivity|].
  apply (generateKey_ignores_education sample_sha profile_bsc profile_phd sample_job);
    reflexivity.
Defined.

End KeyFacts.

(* ------------------------------------------------------------------ *)
(** ** Further properties of the cache, the executor, the monitor, the
    orchestrator, the parser and the job summary *)

Module CacheExtra.
Import AICache.

Lemma clearExpired_lookup_eq {V} (now : Z) (c : gmap string (CacheEntry V)) k :
  clearExpired now c !! k =
    match c !! k with
    | Some e => if now >? expiresAt e then None else Some e
    | None => None
    end.
Proof.
  unfold clearExpired. destruct (c !! k) as [e|] eqn:He.
  - destruct (Z.gtb_spec now (expiresAt e)).
    + apply map_lookup_filter_None. right. intros x Hx. simpl.
      rewrite He in Hx. injection Hx as <-. lia.
    + apply map_lookup_filter_Some. split; [exact He|]. simpl. lia.
  - apply map_lookup_filter_None. left. exact He.
Qed.

(** The periodic sweep is invisible to reads: [get(key)] at a time [t']
    not before the sweep's time [t] returns the same value with or without
    the sweep, and the sweep commutes with the eviction [get] performs. *)
Theorem clearExpired_get {V} (t t' : Z) (c : gmap string (CacheEntry V)) k :
  t <= t' ->
  get k t' (clearExpired t c) = (fst (get k t' c), clearExpired t (snd (get k t' c))).
Proof.
  intros Htt. unfold get. rewrite clearExpired_lookup_eq.
  destruct (c !! k) as [e|] eqn:He; simpl; [|reflexivity].
  destruct (Z.gtb_spec t (expiresAt e)).
  - destruct (Z.gtb_spec t' (expiresAt e)); [|lia]. simpl. f_equal.
    unfold clearExpired. symmetry. apply map_filter_delete_not.
    intros y Hy. rewrite He in Hy. injection Hy as <-. simpl. lia.
  - destruct (Z.gtb_spec t' (expiresAt e)); simpl; [|reflexivity].
    f_equal. unfold clearExpired. symmetry. apply map_filter_delete.
Qed.

(** [set] on another key does not change what [get(key)] returns, and
    commutes with its eviction. *)
Theorem get_set_other {V} (k k' : string) (v : V) (ttl t0 t : Z)
    (c : gmap string (CacheEntry V)) :
  k <> k' ->
  get k t (set k' v ttl t0 c) = (fst (get k t c), set k' v ttl t0 (snd (get k t c))).
Proof.
  intros Hne. unfold get, set. rewrite lookup_insert_ne by congruence.
  destruct (c !! k) as [e|]; [|reflexivity].
  destruct (t >? expiresAt e); [|reflexivity]. simpl.
  rewrite delete_insert_ne by congruence. reflexivity.
Qed.

(** [getStats().size]: [set] adds one entry when the key is new and none
    when it replaces one; [get] and [clearExpired] never add entries. *)
Theorem getStats_size {V} (k : string) (v : V) (ttl0 ttl t : Z)
    (c : gmap string (CacheEntry V)) :
  fst (getStats ttl0 (set k v ttl t c)) =
    (fst (getStats ttl0 c) + match c !! k with Some _ => 0 | None => 1 end)%nat /\
  (fst (getStats ttl0 (snd (get k t c))) <= fst (getStats ttl0 c))%nat /\
  (fst (getStats ttl0 (clearExpired t c)) <= fst (getStats ttl0 c))%nat.
Proof.
  unfold getStats, set, get, clearExpired; simpl. split; [|split].
  - rewrite map_size_insert. destruct (c !! k); simpl; lia.
  - destruct (c !! k) as [e|] eqn:He; [|simpl; lia].
    destruct (t >? expiresAt e); simpl; [|lia].
    rewrite map_size_delete_Some by eauto. lia.
  - apply map_size_filter.
Qed.


Lemma clearExpired_get_witness :
  let c : gmap string (CacheEntry Z) := {["a" := Build_CacheEntry 7 1]} in
  1 <= 2 /\
  get "a" 2 (clearExpired 1 c) = (fst (get "a" 2 c), clearExpired 1 (snd (get "a" 2 c))).
Proof.
  intros c. split; [lia|]. apply (clearExpired_get 1 2 c "a"). lia.
Defined.

Lemma get_set_other_witness :
  let c : gmap string (CacheEntry Z) := {["a" := Build_CacheEntry 7 1]} in
  "a" <> "b" /\
  get "a" 2 (set "b" 8 10 2 c) = (fst (get "a" 2 c), set "b" 8 10 2 (snd (get "a" 2 c))).
Proof.
  intros c. split; [discriminate|]. apply (get_set_other "a" "b" 8 10 2 2 c). discriminate.
Defined.

End CacheExtra.

Module InvocationExtra.
Import Orchestrator APIMonitor.

(** The relations between the monitor's counters that hold of a fresh
    monitor. *)
Definition monitor_consistent (st : Stats) : Prop :=
  successfulCalls st + failedCalls st = totalCalls st /\
  0 <= successfulCalls st /\ 0 <= quotaErrors st <= failedCalls st /\
  0 <= cacheHits st /\ 0 <= retries st <= 3 * totalCalls st /\
  (length (errors st) <= maxErrors)%nat /\
  Z.of_nat (length (errors st)) <= failedCalls st.


Lemma iter_shift {T} k (f : T -> T) x : Nat.iter k f (f x) = Nat.iter (S k) f x.
Proof. induction k as [|k IH]; [reflexivity|]. simpl. rewrite IH. reflexivity. Qed.

Ltac fin1 := repeat split; try first [reflexivity | lia | (intros ? ?; lia) | (left; assumption) | (right; lia)].

Lemma loop_run fuel attempt le (w : World) :
  0 <= attempt -> attempt + Z.of_nat fuel = 3 -> (1 <= fuel)%nat ->
  let '(res, w') := Retry.loop opts fx fuel attempt le w in
  exists n, (1 <= n <= fuel)%nat /\ calls w' = (calls w + n)%nat /\
    cache w' = cache w /\ clock w' = clock w /\ ticks w' = ticks w /\
    provider w' = provider w /\
    (forall i, (i < n - 1)%nat ->
       exists e, provider w (calls w + i)%nat = Throw e /\ is_retriable e = true) /\
    match provider w (calls w + n - 1)%nat with
    | Ok c => res = Ok c /\ mon w' = Nat.iter (n - 1) recordRetry (mon w)
    | Throw e => res = Throw (Some e) /\
                 (is_retriable e = false \/ attempt + Z.of_nat n = 3) /\
                 mon w' = Nat.iter n recordRetry (mon w)
    end.
Proof.
  revert attempt le w. induction fuel as [|fuel IH]; intros attempt le w H0 H3 Hf; [lia|].
  cbn [Retry.loop]. simpl.
  destruct (provider w (calls w)) as [c|err] eqn:Hp; simpl.
  { exists 1%nat. rewrite Nat.add_sub, Hp.
    fin1. }
  destruct (is_retriable err) eqn:Hr; simpl.
  2: { exists 1%nat. rewrite Nat.add_sub, Hp.
       fin1. }
  destruct (Z.eqb_spec attempt (3 - 1)) as [Ha|Ha]; simpl.
  { exists 1%nat. rewrite Nat.add_sub, Hp.
    fin1. }
  destruct fuel as [|fuel]; [lia|].
  match goal with |- context [Retry.loop opts fx (S fuel) ?a ?l ?w2] =>
    specialize (IH a l w2 ltac:(lia) ltac:(lia) ltac:(lia));
    destruct (Retry.loop opts fx (S fuel) a l w2) as [res w'] end.
  destruct IH as (n & Hn & Hc & Hca & Hcl & Ht & Hpv & Hpre & Hlast).
  simpl in *. exists (S n). split; [lia|].
  split; [lia|]. split; [exact Hca|]. split; [exact Hcl|]. split; [exact Ht|].
  split; [exact Hpv|]. split.
  - intros [|i] Hi.
    + rewrite Nat.add_0_r. eauto.
    + destruct (Hpre i ltac:(lia)) as (e & He & Hre). exists e.
      replace (calls w + S i)%nat with (S (calls w) + i)%nat by lia. split; [exact He | exact Hre].
  - rewrite Nat.sub_0_r in Hlast.
    replace (calls w + S n - 1)%nat with (calls w + n)%nat by lia.
    destruct (provider w (calls w + n)%nat) as [c'|e'].
    + destruct Hlast as [-> Hm]. split; [reflexivity|].
      rewrite Hm, iter_shift. f_equal. lia.
    + destruct Hlast as (-> & Hs & Hm). split; [reflexivity|]. split; [destruct Hs as [Hs|Hs]; [left; exact Hs | right; lia]|].
      rewrite Hm, iter_shift. reflexivity.
Qed.


(** The policy of [analyzeJobMatch] on the provider: [n] calls, 1 to 3;
    every call before the last failed with a retriable error; the last
    call's response is returned, or its error rethrown, the error being
    not retriable or the third. *)
Theorem retry_policy_outcome (w : World) :
  let '(res, w') := Retry.retryWithBackoff opts fx w in
  exists n, (1 <= n <= 3)%nat /\ calls w' = (calls w + n)%nat /\
    (forall i, (i < n - 1)%nat ->
       exists e, provider w (calls w + i)%nat = Throw e /\ is_retriable e = true) /\
    match provider w (calls w + n - 1)%nat with
    | Ok c => res = Ok c
    | Throw e => res = Throw (Some e) /\ (is_retriable e = false \/ n = 3%nat)
    end.
Proof.
  pose proof (loop_run 3 0 None w ltac:(lia) eq_refl ltac:(lia)) as L.
  change (Retry.loop opts fx 3 0 None w) with (Retry.retryWithBackoff opts fx w) in L.
  destruct (Retry.retryWithBackoff opts fx w) as [res w'].
  destruct L as (n & Hn & Hc & _ & _ & _ & _ & Hpre & Hlast).
  exists n. split; [exact Hn|]. split; [exact Hc|]. split; [exact Hpre|].
  destruct (provider w (calls w + n - 1)%nat).
  - exact (proj1 Hlast).
  - destruct Hlast as (-> & Hs & _). split; [reflexivity|].
    destruct Hs as [Hs|Hs]; [left; exact Hs | right; lia].
Qed.

Lemma classify_plain e : exists m, classify e = new_Error m.
Proof.
  unfold classify.
  repeat match goal with |- context [if ?b then _ else _] => destruct b end;
    eexists; reflexivity.
Qed.

Lemma catch_facts error (w : World) :
  let '(r, w') := catch error w in
  (exists e, r = Throw e /\ err_is_api e = false /\ err_status e = None /\
             err_code e = None /\ err_response_status e = None) /\
  cache w' = cache w /\ calls w' = calls w /\
  exists t1 t2, mon w' = snd (recordFailure t1 t2 error (mon w)).
Proof.
  destruct error as [e|].
  - destruct (classify_plain e) as [m Hm].
    unfold catch, now. cbn -[classify]. rewrite Hm.
    split; [eexists; repeat split; reflexivity|]. split; [reflexivity|].
    split; [reflexivity|]. do 2 eexists. reflexivity.
  - unfold catch, now. cbn.
    split; [eexists; repeat split; reflexivity|]. split; [reflexivity|].
    split; [reflexivity|]. exists (clock w (ticks w)), (clock w (ticks w)). reflexivity.
Qed.

Lemma run_summary sha256_hex userProfile jobDetails (w w' : World) r :
  analyzeJobMatch sha256_hex userProfile jobDetails w = (r, w') ->
  let key := Key.generateKey sha256_hex userProfile jobDetails in
  (forall k, k <> key -> cache w' !! k = cache w !! k) /\
  ((mon w' = recordCacheHit (mon w) /\ calls w' = calls w /\ exists a, r = Ok a) \/
   exists n k, (1 <= n <= 3)%nat /\ (k <= n)%nat /\ calls w' = (calls w + n)%nat /\
     let m := Nat.iter k recordRetry (recordCall (mon w)) in
     ((exists a t, r = Ok a /\ mon w' = recordSuccess t m) \/
      (exists e t1 t2 error, r = Throw e /\ err_is_api e = false /\
         err_status e = None /\ err_code e = None /\ err_response_status e = None /\
         mon w' = snd (recordFailure t1 t2 error m)))).
Proof.
  intros Hrun key. unfold analyzeJobMatch in Hrun. fold key in Hrun. simpl in Hrun.
  destruct (CacheFacts.get_cases key (clock w (ticks w)) (cache w))
    as [[e [_ [_ Hg]]] | [[Hk Hg] | [e [_ [_ Hg]]]]];
    rewrite Hg in Hrun; simpl in Hrun.
  { injection Hrun as <- <-. split; [reflexivity|]. left. simpl. eauto. }
  all: match type of Hrun with context [Retry.retryWithBackoff opts fx ?x] =>
      pose proof (loop_run 3 0 None x ltac:(lia) eq_refl ltac:(lia)) as L;
      change (Retry.loop opts fx 3 0 None x) with (Retry.retryWithBackoff opts fx x) in L;
      destruct (Retry.retryWithBackoff opts fx x) as [res wr] end;
    destruct L as (n & Hn & Hc & Hca & _ & _ & _ & _ & Hlast); simpl in Hca, Hc.
  all: assert (Hmon : exists k, (k <= n)%nat /\
                 mon wr = Nat.iter k recordRetry (recordCall (mon w)))
    by (destruct (provider _ _);
        [exists (n - 1)%nat; split; [lia | exact (proj2 Hlast)]
        |exists n; split; [lia | exact (proj2 (proj2 Hlast))]]);
    destruct Hmon as (k & Hk' & Hmon); clear Hlast.
  all: assert (Hcatch : forall error, catch error wr = (r, w') ->
      (forall k, k <> key -> cache w' !! k = cache wr !! k) /\
      exists n k, (1 <= n <= 3)%nat /\ (k <= n)%nat /\ calls w' = (calls w + n)%nat /\
      let m := Nat.iter k recordRetry (recordCall (mon w)) in
      ((exists a t, r = Ok a /\ mon w' = recordSuccess t m) \/
       (exists e t1 t2 error, r = Throw e /\ err_is_api e = false /\
          err_status e = None /\ err_code e = None /\ err_response_status e = None /\
          mon w' = snd (recordFailure t1 t2 error m))))
    by (intros error Hce; pose proof (catch_facts error wr) as C; rewrite Hce in C;
        destruct C as ((e0 & -> & E1 & E2 & E3 & E4) & C1 & C2 & t1 & t2 & C3);
        split; [intros k0 _; rewrite C1; reflexivity|];
        exists n, k; split; [exact Hn|]; split; [exact Hk'|]; split; [congruence|];
        right; exists e0, t1, t2, error; rewrite C3, Hmon; repeat split; assumption).
  all: destruct res as [comp|err];
    [ destruct (choices comp) as [|a rest];
      [ destruct (Hcatch _ Hrun) as [F G]
      | destruct (Parse.parseAIResponse a) as [pa|pe];
        [ injection Hrun as <- <-
        | destruct (Hcatch _ Hrun) as [F G] ] ]
    | destruct (Hcatch _ Hrun) as [F G] ].
  all: try (split; [intros k0 Hk0; rewrite F by exact Hk0; rewrite Hca;
                    first [reflexivity | apply lookup_delete_ne; congruence] | right; exact G]).
  all: split;
    [ intros k0 Hk0; simpl; unfold AICache.set; rewrite lookup_insert_ne by congruence;
      rewrite Hca; first [reflexivity | apply lookup_delete_ne; congruence]
    | right; exists n, k; split; [exact Hn|]; split; [exact Hk'|]; split; [simpl; lia|];
      left; exists pa; eexists; split; [reflexivity|]; simpl; rewrite Hmon; reflexivity ].
Qed.


Lemma iter_retry_fields k st :
  let st' := Nat.iter k recordRetry st in
  totalCalls st' = totalCalls st /\ successfulCalls st' = successfulCalls st /\
  failedCalls st' = failedCalls st /\ cacheHits st' = cacheHits st /\
  quotaErrors st' = quotaErrors st /\ retries st' = retries st + Z.of_nat k /\
  errors st' = errors st.
Proof.
  induction k as [|k IH]; simpl; [repeat split; lia|].
  destruct IH as (H1 & H2 & H3 & H4 & H5 & H6 & H7).
  repeat split; simpl; try lia; assumption.
Qed.

Lemma recordFailure_fields t1 t2 err st :
  let st' := snd (recordFailure t1 t2 err st) in
  totalCalls st' = totalCalls st /\ successfulCalls st' = successfulCalls st /\
  failedCalls st' = failedCalls st + 1 /\ cacheHits st' = cacheHits st /\
  retries st' = retries st /\ quotaErrors st <= quotaErrors st' <= quotaErrors st + 1 /\
  (length (errors st') <= length (errors st) + 1)%nat /\
  ((length (errors st) <= maxErrors)%nat -> (length (errors st') <= maxErrors)%nat).
Proof.
  destruct err as [e|]; simpl; [|repeat split; lia].
  repeat split; try reflexivity;
    try (destruct (is_quota_error e); lia);
    destruct (Nat.ltb maxErrors (S (length (errors st)))) eqn:E;
    first [ apply Nat.ltb_lt in E; unfold maxErrors in *; simpl in *;
            rewrite ?length_take; lia
          | apply Nat.ltb_ge in E; unfold maxErrors in *; simpl in *; lia ].
Qed.

Lemma run_monitor sha256_hex userProfile jobDetails (w w' : World) r :
  analyzeJobMatch sha256_hex userProfile jobDetails w = (r, w') ->
  let st := mon w in let st' := mon w' in
  (cacheHits st' = cacheHits st + 1 /\ totalCalls st' = totalCalls st /\
   successfulCalls st' = successfulCalls st /\ failedCalls st' = failedCalls st /\
   quotaErrors st' = quotaErrors st /\ retries st' = retries st /\
   errors st' = errors st /\ calls w' = calls w /\ mon w' = recordCacheHit (mon w) /\
   exists a, r = Ok a) \/
  (cacheHits st' = cacheHits st /\ totalCalls st' = totalCalls st + 1 /\
   (calls w < calls w' <= calls w + 3)%nat /\
   retries st <= retries st' <= retries st + Z.of_nat (calls w' - calls w) /\
   quotaErrors st <= quotaErrors st' <= quotaErrors st + 1 /\
   (length (errors st') <= length (errors st) + 1)%nat /\
   ((length (errors st) <= maxErrors)%nat -> (length (errors st') <= maxErrors)%nat) /\
   match r with
   | Ok _ => successfulCalls st' = successfulCalls st + 1 /\ failedCalls st' = failedCalls st /\
             quotaErrors st' = quotaErrors st /\ errors st' = errors st
   | Throw _ => failedCalls st' = failedCalls st + 1 /\ successfulCalls st' = successfulCalls st
   end).
Proof.
  intros Hrun st st'. subst st st'.
  destruct (run_summary _ _ _ _ _ _ Hrun) as [_ [(Hm & Hc & a & ->) | (n & k & Hn & Hk & Hc & R)]].
  - left. rewrite Hm, Hc. simpl. repeat split; try reflexivity; eauto.
  - right. rewrite Hc. replace (calls w + n - calls w)%nat with n by lia.
    destruct (iter_retry_fields k (recordCall (mon w))) as (I1 & I2 & I3 & I4 & I5 & I6 & I7).
    simpl in I1, I2, I3, I4, I5, I6, I7.
    destruct R as [(a & t & -> & Hm) | (e & t1 & t2 & error & -> & _ & _ & _ & _ & Hm)];
      rewrite Hm.
    + simpl. rewrite I1, I2, I3, I4, I5, I6, I7. repeat split; lia.
    + destruct (recordFailure_fields t1 t2 error (Nat.iter k recordRetry (recordCall (mon w))))
        as (F1 & F2 & F3 & F4 & F5 & F6 & F7 & F8).
      rewrite I1 in F1; rewrite I2 in F2; rewrite I3 in F3; rewrite I4 in F4;
      rewrite I6 in F5; rewrite I5 in F6; rewrite I7 in F7, F8.
      repeat split; lia.
Qed.


(** The monitor's counters stay consistent over any sequence of analyses
    started from a consistent monitor (e.g. a fresh one): successful plus
    failed calls is the total, quota errors are failed calls, at most
    three retries per call, and the error log holds at most 50 entries
    and no more than the failed calls. *)
Theorem invocation_monitor_consistent sha256_hex userProfile jobDetails (w : World) :
  monitor_consistent (mon w) ->
  monitor_consistent (mon (snd (analyzeJobMatch sha256_hex userProfile jobDetails w))).
Proof.
  unfold monitor_consistent. intros (C1 & C2 & C3 & C4 & C5 & C6 & C7).
  destruct (analyzeJobMatch sha256_hex userProfile jobDetails w) as [r w'] eqn:E. simpl.
  destruct (run_monitor _ _ _ _ _ _ E)
    as [(H1 & H2 & H3 & H4 & H5 & H6 & H7 & _)
       |(H1 & H2 & H3 & H4 & H5 & H6 & H7 & H8)].
  - rewrite H1, H2, H3, H4, H5, H6, H7. repeat split; lia.
  - specialize (H7 C6).
    assert (Z.of_nat (calls w' - calls w) <= 3) by lia.
    destruct r as [a|e].
    + destruct H8 as (S1 & S2 & S4 & S3). rewrite S3. repeat split; lia.
    + destruct H8 as (S1 & S2). repeat split; lia.
Qed.

(** [analyzeJobMatch] writes the cache only under the key of its own
    request: every other key maps to what it mapped to before. *)
Theorem invocation_cache_frame sha256_hex userProfile jobDetails (w : World) k :
  k <> Key.generateKey sha256_hex userProfile jobDetails ->
  cache (snd (analyzeJobMatch sha256_hex userProfile jobDetails w)) !! k = cache w !! k.
Proof.
  intros Hk. destruct (analyzeJobMatch sha256_hex userProfile jobDetails w) as [r w'] eqn:E.
  exact (proj1 (run_summary _ _ _ _ _ _ E) k Hk).
Qed.

(** What [analyzeJobMatch] throws is always a plain [Error] with a
    message: never an [OpenAI.APIError], and without [status], [code] or
    [response.status]. *)
Theorem invocation_errors_plain sha256_hex userProfile jobDetails (w : World) :
  match fst (analyzeJobMatch sha256_hex userProfile jobDetails w) with
  | Throw e => err_is_api e = false /\ err_status e = None /\ err_code e = None /\
               err_response_status e = None
  | Ok _ => True
  end.
Proof.
  destruct (analyzeJobMatch sha256_hex userProfile jobDetails w) as [r w'] eqn:E. simpl.
  destruct (run_summary _ _ _ _ _ _ E) as [_ [(_ & _ & a & ->) | (n & k & _ & _ & _ & R)]];
    [exact I|].
  destruct R as [(a & t & -> & _) | (e & t1 & t2 & error & -> & H1 & H2 & H3 & H4 & _)];
    [exact I | tauto].
Qed.


Lemma invocation_monitor_consistent_witness :
  let w := Samples.sample_world ∅ (fun _ => 0) (fun _ => Throw Samples.err400) (fun _ => 0) in
  monitor_consistent (mon w) /\
  monitor_consistent (mon (snd (analyzeJobMatch Samples.sample_sha [] [] w))).
Proof.
  intros w.
  assert (H : monitor_consistent (mon w)) by (unfold monitor_consistent; simpl; lia).
  split; [exact H|]. apply (invocation_monitor_consistent Samples.sample_sha [] [] w). exact H.
Defined.

Lemma invocation_cache_frame_witness :
  let w := Samples.sample_world {["j" := AICache.Build_CacheEntry Samples.sample_analysis 5]}
             (fun _ => 10) (fun _ => Throw Samples.err400) (fun _ => 0) in
  "j" <> Key.generateKey Samples.sample_sha [] [] /\
  cache (snd (analyzeJobMatch Samples.sample_sha [] [] w)) !! "j" = cache w !! "j".
Proof.
  intros w. split; [vm_compute; discriminate|].
  apply (invocation_cache_frame Samples.sample_sha [] [] w "j"). vm_compute. discriminate.
Defined.

End InvocationExtra.

Module MonitorExtra.
Import APIMonitor.

(** [getHealth()] gives no recommendation exactly when its status is
    [healthy] and retries are at most twice the successful calls; the
    retry advice is given exactly when retries exceed twice the successful
    calls, and the quota advice exactly when quota errors are frequent. *)
Theorem getHealth_recommendations (st : Stats) :
  let h := getHealth st in
  (h_recommendations h = [] <-> h_status h = healthy /\ retries st <= successfulCalls st * 2) /\
  (In "High retry rate detected"%string (h_recommendations h) <->
     successfulCalls st * 2 < retries st) /\
  (In "Frequent quota errors detected"%string (h_recommendations h) <->
     isQuotaErrorFrequent st = true).
Proof.
  unfold getHealth.
  destruct (Qltb _ (1 # 2)%Q); [|destruct (Qltb _ (4 # 5)%Q)];
    (destruct (isQuotaErrorFrequent st) eqn:Hq;
     destruct (successfulCalls st * 2 <? retries st) eqn:Hr;
     first [apply Z.ltb_lt in Hr | apply Z.ltb_ge in Hr]);
    cbn [h_recommendations h_status app];
    (split; [|split]); split; intros H; simpl in H;
    repeat match goal with
           | H : _ \/ _ |- _ => destruct H as [H|H]
           | H : False |- _ => destruct H
           | H : _ /\ _ |- _ => destruct H
           end;
    try discriminate; try lia; try reflexivity; try (split; [reflexivity|lia]);
    simpl; tauto.
Qed.

(** After [recordFailure(error)] the first recent error is the one just
    recorded, with its message, status and code. *)
Theorem getRecentErrors_after_failure t1 t2 (e : jserr) (st : Stats) (n : Z) :
  1 <= n ->
  head (getRecentErrors (Some n) (snd (recordFailure t1 t2 (Some e) st))) =
    Some {| timestamp := t2; message := err_message e; status := err_status e;
            code := err_code e |}.
Proof.
  intros Hn. unfold getRecentErrors, slice_to.
  rewrite (proj2 (Z.ltb_ge n 0) ltac:(lia)).
  assert (Hl : exists l', errors (snd (recordFailure t1 t2 (Some e) st)) =
      {| timestamp := t2; message := err_message e; status := err_status e;
         code := err_code e |} :: l').
  { unfold recordFailure. cbn [snd errors].
    destruct (Nat.ltb maxErrors _); [eexists; reflexivity | eexists; reflexivity]. }
  destruct Hl as [l' ->].
  destruct (Z.to_nat _) eqn:Hm; [cbn [length] in Hm; lia | reflexivity].
Qed.


Lemma getRecentErrors_after_failure_witness :
  1 <= 10 /\
  head (getRecentErrors (Some 10) (snd (recordFailure 1 2 (Some Samples.err400) initial))) =
    Some {| timestamp := 2; message := err_message Samples.err400;
            status := err_status Samples.err400; code := err_code Samples.err400 |}.
Proof.
  split; [lia|]. apply (getRecentErrors_after_failure 1 2 Samples.err400 initial 10). lia.
Defined.

End MonitorExtra.

Module ParseExtra.
Import Parse.

Definition ws_head (s : jsstr) : Prop :=
  match s with [] => True | c :: _ => is_ws c = false end.

Lemma drop_ws_head s : ws_head (drop_ws s).
Proof.
  induction s as [|c s IH]; simpl; [exact I|].
  destruct (is_ws c) eqn:E; [exact IH | exact E].
Qed.

Lemma drop_ws_id s : ws_head s -> drop_ws s = s.
Proof. destruct s as [|c s]; simpl; [reflexivity|]. intros ->. reflexivity. Qed.

Lemma drop_ws_suffix s : exists p, s = p ++ drop_ws s.
Proof.
  induction s as [|c s [p IH]]; simpl; [exists []; reflexivity|].
  destruct (is_ws c); [exists (c :: p); simpl; f_equal; exact IH | exists []; reflexivity].
Qed.

Lemma drop_ws_incl s x : In x (drop_ws s) -> In x s.
Proof. destruct (drop_ws_suffix s) as [p Hp]. intros H. rewrite Hp. apply in_or_app. auto. Qed.

Lemma trim_incl s x : In x (trim s) -> In x s.
Proof.
  unfold trim. intros H. apply in_rev in H. apply drop_ws_incl in H.
  apply in_rev in H. apply drop_ws_incl in H. exact H.
Qed.

Lemma trim_trim s : trim (trim s) = trim s.
Proof.
  unfold trim. set (d := drop_ws s). set (e := drop_ws (rev d)).
  assert (He : ws_head e) by apply drop_ws_head.
  assert (Hd : ws_head d) by apply drop_ws_head.
  (* the first character of [rev e] is the first of [d], or [e] is empty *)
  assert (Hr : ws_head (rev e)).
  { destruct (drop_ws_suffix (rev d)) as [p Hp]. fold e in Hp.
    destruct e as [|x e'] using rev_ind; [exact I|].
    rewrite rev_app_distr. simpl.
    assert (Hx : rev (rev d) = rev (p ++ e' ++ [x])) by (rewrite Hp; reflexivity).
    rewrite rev_involutive, !rev_app_distr in Hx. simpl in Hx.
    rewrite Hx in Hd. exact Hd. }
  rewrite (drop_ws_id (rev e) Hr), rev_involutive, (drop_ws_id e He). reflexivity.
Qed.

Lemma split_nl_aux_no_nl cur s :
  ~ In 10 cur -> Forall (fun l => ~ In 10 l) (split_nl_aux cur s).
Proof.
  revert cur. induction s as [|c s IH]; intros cur Hc; simpl.
  - constructor; [rewrite <- in_rev; exact Hc | constructor].
  - destruct (c =? 10) eqn:E.
    + constructor; [rewrite <- in_rev; exact Hc|]. apply IH. simpl. tauto.
    + apply IH. simpl. intros [H|H]; [subst; discriminate | exact (Hc H)].
Qed.

Lemma num_prefix_drop_incl l x :
  In x (match num_prefix l with Some n => drop n l | None => l end) -> In x l.
Proof.
  destruct (num_prefix l); [|auto]. intros H.
  rewrite <- (take_drop n l). apply in_or_app. auto.
Qed.

(** Every item [extractListItems] returns is non-empty, has no leading
    or trailing whitespace ([trim] leaves it as it is) and holds no line
    feed: it is the trimmed rest of one line after its bullet or number. *)
Theorem extractListItems_items (text : jsstr) :
  Forall (fun item => item <> [] /\ trim item = item /\ ~ In 10 item)
    (extractListItems text).
Proof.
  unfold extractListItems. destruct (negb (nonempty text)); [constructor|].
  apply List.Forall_forall. intros item Hi.
  apply filter_In in Hi as [Hi Hne].
  apply in_map_iff in Hi as [line [<- Hl]].
  apply filter_In in Hl as [Hl _]. apply filter_In in Hl as [Hl _].
  apply in_map_iff in Hl as [raw [<- Hraw]].
  pose proof (proj1 (List.Forall_forall _ _) (split_nl_aux_no_nl [] text (fun H => H)) raw Hraw)
    as Hnl.
  split; [|split].
  - intros E. rewrite E in Hne. discriminate.
  - apply trim_trim.
  - intros H. apply Hnl. apply trim_incl in H. apply num_prefix_drop_incl in H.
    destruct (bullet_prefix (trim raw)).
    + apply trim_incl. rewrite <- (take_drop 2 (trim raw)). apply in_or_app. auto.
    + apply trim_incl. exact H.
Qed.

(** On every completion string, the strengths and areas to improve that
    [parseAIResponse] returns are such items: non-empty, trimmed and on
    one line. *)
Theorem parseAIResponse_items (s : jsstr) :
  match parseAIResponse (Some s) with
  | Ok r => Forall (fun item => item <> [] /\ trim item = item /\ ~ In 10 item) (strengths r) /\
            Forall (fun item => item <> [] /\ trim item = item /\ ~ In 10 item) (areasToImprove r)
  | Throw _ => False
  end.
Proof.
  simpl. split; apply Forall_take;
    [destruct (after_ci label_str s) | destruct (after_ci label_areas s)];
    try apply extractListItems_items; constructor.
Qed.

End ParseExtra.

Module JobSummaryExtra.
Import JobSummary.

Lemma join_mid (sep a x : jsstr) (A D : list jsstr) :
  JSON.join sep ((a :: A) ++ x :: D) =
  JSON.join sep (a :: A) ++ sep ++ x ++
    match D with [] => [] | _ :: _ => sep ++ JSON.join sep D end.
Proof.
  revert a. induction A as [|b A IH]; intros a.
  - destruct D as [|y D]; cbn [app JSON.join]; [rewrite app_nil_r; reflexivity|].
    rewrite !app_assoc. reflexivity.
  - transitivity (a ++ sep ++ JSON.join sep ((b :: A) ++ x :: D)); [reflexivity|].
    rewrite IH. change (JSON.join sep (a :: b :: A)) with (a ++ sep ++ JSON.join sep (b :: A)).
    rewrite !app_assoc. reflexivity.
Qed.

(** The cache key of [analyzeJobMatch] reads the job's title,
    description, requirements and company, but the prompt's job summary
    shows its location: two jobs that agree on those four fields share a
    cache key, whatever their locations, while [buildJobPostingSummary]
    gives them different summaries when their (truthy) locations print
    differently. *)
Theorem job_location_shares_key (sha256_hex : jsstr -> string) (userProfile j1 j2 : jsobj)
    (s1 s2 : jsstr) :
  prop j1 "jobTitle" = prop j2 "jobTitle" ->
  prop j1 "jobDescription" = prop j2 "jobDescription" ->
  prop j1 "requirements" = prop j2 "requirements" ->
  prop j1 "company" = prop j2 "company" ->
  Key.generateKey sha256_hex userProfile j1 = Key.generateKey sha256_hex userProfile j2 /\
  (buildJobPostingSummary j1 = Some s1 -> buildJobPostingSummary j2 = Some s2 ->
   truthy (prop j1 "location") = true -> truthy (prop j2 "location") = true ->
   to_string (prop j1 "location") <> to_string (prop j2 "location") ->
   s1 <> s2).
Proof.
  intros Ht Hd Hr Hc. split.
  { unfold Key.generateKey, Key.combined, Key.jobKey. rewrite Ht, Hd, Hr, Hc. reflexivity. }
  intros H1 H2 Hl1 Hl2 Hne Heq. subst s2.
  unfold buildJobPostingSummary in H1, H2.
  rewrite <- Ht, <- Hc, <- Hd in H2.
  unfold line_if at 3 in H1. unfold line_if at 3 in H2. rewrite Hl1 in H1. rewrite Hl2 in H2.
  destruct (if truthy (prop j1 "jobDescription") then
              match to_string (prop j1 "jobDescription") with
              | Some d => Some [10 :: js "**Job Description:**"; d]
              | None => None
              end
            else Some []) as [d|],
           (to_string (prop j1 "location")) as [x1|],
           (to_string (prop j2 "location")) as [x2|],
           (line_if "- Job Title: " (prop j1 "jobTitle")) as [t|],
           (line_if "- Company: " (prop j1 "company")) as [c|];
    cbv beta iota in H1, H2; try discriminate.
  apply Hne. f_equal.
  apply (inj Some) in H1. apply (inj Some) in H2. rewrite <- H2 in H1. clear H2.
  assert (E : forall (h L : jsstr), h :: t ++ c ++ [L] ++ d = (h :: t ++ c) ++ L :: d)
    by (intros; cbn [app]; rewrite app_assoc; reflexivity).
  rewrite !E, !join_mid in H1.
  apply app_inv_head in H1. cbn [app] in H1. injection H1 as H1.
  apply app_inv_tail in H1. exact H1.
Qed.


Lemma job_location_shares_key_witness :
  let j1 := Samples.sample_job ++ [(js "location", JStr (js "Berlin"))] in
  let j2 := Samples.sample_job ++ [(js "location", JStr (js "Paris"))] in
  let s1 := default [] (buildJobPostingSummary j1) in
  let s2 := default [] (buildJobPostingSummary j2) in
  (prop j1 "jobTitle" = prop j2 "jobTitle" /\
   prop j1 "jobDescription" = prop j2 "jobDescription" /\
   prop j1 "requirements" = prop j2 "requirements" /\
   prop j1 "company" = prop j2 "company") /\
  Key.generateKey Samples.sample_sha Samples.profile_bsc j1 =
    Key.generateKey Samples.sample_sha Samples.profile_bsc j2 /\
  (buildJobPostingSummary j1 = Some s1 -> buildJobPostingSummary j2 = Some s2 ->
   truthy (prop j1 "location") = true -> truthy (prop j2 "location") = true ->
   to_string (prop j1 "location") <> to_string (prop j2 "location") ->
   s1 <> s2).
Proof.
  intros j1 j2 s1 s2. split; [repeat split; reflexivity|].
  apply (job_location_shares_key Samples.sample_sha Samples.profile_bsc j1 j2 s1 s2);
    reflexivity.
Defined.

End JobSummaryExtra.
